(** * Peak detection, mode clustering and shape reconstruction

    A shallow embedding of the numeric core of
    [final-assignment/Wintersteiger/code/ModeVisualizerRun.py] and of the
    peak detectors of [final-assignment/Wintersteiger/code/ModeAnalyzer.py].

    Numbers.  The program computes on binary64 floats.  The embedding
    computes on exact rationals [Q]: comparisons, sums and quotients are
    the mathematical ones and rounding, infinities and nan are outside the
    model.  The one place that needs a square root (the Euclidean norm in
    [draw_mode]) is embedded over the real numbers [R] in its own module.
    Where a rounded or overflowed mean changes what [cluster_modes]
    returns, the function is embedded a second time on binary64 floats
    (module [Binary64]).

    Faults.  Python exceptions are values of [result]: an operation that
    can raise ([a[i]], [d[k]], [np.concatenate], [np.max], [np.argmin])
    returns [Raise e] where Python raises, and the embedded functions
    thread this through a small error monad. *)

From Stdlib Require Import Floats.
From Stdlib Require Import String DecimalString.
From Stdlib Require Import Reals Qreals.
From Stdlib Require Import List Bool Arith ZArith QArith Qabs Lia Psatz.
From Stdlib Require Import Permutation Sorted.
Import ListNotations.

Set Implicit Arguments.

(** ** Faults *)

Inductive exn : Type :=
| IndexError          (* sequence index out of range *)
| KeyError            (* missing dictionary key *)
| ValueError          (* empty argument of a reduction, empty concatenate *)
| FloatingPointError. (* a nan would be produced (mean of no values) *)

Inductive result (A : Type) : Type :=
| Ok (a : A)
| Raise (e : exn).

Arguments Ok {A} a.
Arguments Raise {A} e.

Definition bind {A B : Type} (c : result A) (k : A -> result B) : result B :=
  match c with
  | Ok a => k a
  | Raise e => Raise e
  end.

Notation "x <- c ;; k" := (bind c (fun x => k))
  (at level 61, c at next level, right associativity).

(** [for x in xs: s = body(x, s)] *)
Fixpoint for_each {A S : Type} (xs : list A) (body : A -> S -> result S)
  (s : S) : result S :=
  match xs with
  | [] => Ok s
  | x :: xs' => s' <- body x s ;; for_each xs' body s'
  end.

(** [[f(x) for x in xs]] where [f] may raise *)
Fixpoint comprehension {A B : Type} (f : A -> result B) (xs : list A)
  : result (list B) :=
  match xs with
  | [] => Ok []
  | x :: xs' => y <- f x ;; ys <- comprehension f xs' ;; Ok (y :: ys)
  end.

(** [range(lo, hi)] *)
Definition range (lo hi : nat) : list nat := seq lo (hi - lo).

(** [a[i]] for a non-negative index *)
Definition getitem {A : Type} (a : list A) (i : nat) : result A :=
  match nth_error a i with
  | Some v => Ok v
  | None => Raise IndexError
  end.

(** [a[-1]] *)
Definition getitem_last {A : Type} (a : list (list A)) : result (list A) :=
  match a with
  | [] => Raise IndexError
  | _ :: _ => Ok (last a [])
  end.

(** [a and b], where [b] is evaluated only when [a] is true *)
Definition py_and (a b : result bool) : result bool :=
  x <- a ;; if x then b else Ok false.

(** ** Numbers *)

Definition Qlt_bool (x y : Q) : bool := negb (Qle_bool y x).

(** [sum(c) / len(c)]; numpy answers nan on no values *)
Definition Qsum (c : list Q) : Q := fold_right Qplus 0 c.

Definition Qlen (c : list Q) : Q := inject_Z (Z.of_nat (length c)).

Definition np_mean (c : list Q) : result Q :=
  match c with
  | [] => Raise FloatingPointError
  | _ :: _ => Ok (Qsum c / Qlen c)
  end.

(** [np.max(a)]: the first of the largest values; raises on no values *)
Definition np_max (a : list Q) : result Q :=
  match a with
  | [] => Raise ValueError
  | v :: a' => Ok (fold_left (fun m w => if Qlt_bool m w then w else m) a' v)
  end.

(** [np.min(a)]: the first of the smallest values; raises on no values *)
Definition np_min (a : list Q) : result Q :=
  match a with
  | [] => Raise ValueError
  | v :: a' => Ok (fold_left (fun m w => if Qlt_bool w m then w else m) a' v)
  end.

(** [np.argmin(a)]: the index of the first of the smallest values *)
Fixpoint argmin_from (a : list Q) (i : nat) (best : nat) (bv : Q) : nat :=
  match a with
  | [] => best
  | v :: a' =>
      if Qlt_bool v bv then argmin_from a' (S i) i v
      else argmin_from a' (S i) best bv
  end.

Definition np_argmin (a : list Q) : result nat :=
  match a with
  | [] => Raise ValueError
  | v :: a' => Ok (argmin_from a' 1 0 v)
  end.

(** [np.any(m)] for a boolean array *)
Definition np_any (m : list bool) : bool := existsb (fun b => b) m.

(** [y[m]] for a boolean mask [m]: the entries of [y] where [m] holds;
    a mask of another length is an IndexError *)
Fixpoint mask_filter (y : list Q) (m : list bool) : list Q :=
  match y, m with
  | v :: y', b :: m' => if b then v :: mask_filter y' m' else mask_filter y' m'
  | _, _ => []
  end.

Definition mask_select (y : list Q) (m : list bool) : result (list Q) :=
  if (length y =? length m)%nat then Ok (mask_filter y m)
  else Raise IndexError.

(** [np.concatenate(arrays)]: raises on an empty list of arrays *)
Definition np_concatenate (arrays : list (list Q)) : result (list Q) :=
  match arrays with
  | [] => Raise ValueError
  | _ :: _ => Ok (concat arrays)
  end.

(** ** Sorting

    [sorted(l, key=k)] and [a.sort()] are embedded as one stable
    insertion sort that, like Python's [sorted], compares keys with [<]
    only.  For Python's [sorted] stability is documented, and for numpy's
    [sort] on numbers the order of equal values cannot be observed.

    pandas' [df.sort_values(col)] sorts with quicksort by default and
    promises no order for rows that share a key.  In [load_lvm_as_df] of
    ModeVisualizerRun.py it is embedded by the same insertion sort, and
    only what holds for every order of tied rows is stated of it.  In the
    detectors of ModeAnalyzer.py, where the order of tied rows decides
    the peaks, it is a parameter [sort_values] of the embedded function,
    of which [sorts_by_frequency] is all that is assumed. *)

Section StableSort.
Variable A : Type.
Variable key : A -> Q.

Fixpoint insert_by (x : A) (l : list A) : list A :=
  match l with
  | [] => [x]
  | y :: l' => if Qlt_bool (key y) (key x) then y :: insert_by x l'
               else x :: l
  end.

Fixpoint sorted_by (l : list A) : list A :=
  match l with
  | [] => []
  | x :: l' => insert_by x (sorted_by l')
  end.
End StableSort.

(** ** Data *)

(** A row of a data frame with the columns ["freq"] and ["imag"]. *)
Abbreviation Sample := (Q * Q)%type (only parsing).
Abbreviation DataFrame := (list (Q * Q)) (only parsing).
(** A peak is the tuple [(freq, imag)]. *)
Abbreviation Peak := (Q * Q)%type (only parsing).

Definition col_freq (df : DataFrame) : list Q := map fst df.
Definition col_imag (df : DataFrame) : list Q := map snd df.

(** [df.empty]: no rows (both columns always exist here) *)
Definition df_empty (df : DataFrame) : bool :=
  match df with [] => true | _ => false end.

(** [df.sort_values("freq").reset_index(drop=True)] by insertion: one of
    the sorts by frequency, the one that leaves rows of equal frequency
    in their order. *)
Definition sort_values_freq (df : DataFrame) : DataFrame :=
  sorted_by fst df.

(** [df[(df["freq"] >= fmin) & (df["freq"] <= fmax)]], with or without
    [.reset_index(drop=True)]: the rows in the range, in order. *)
Definition filter_range (fmin fmax : Q) (df : DataFrame) : DataFrame :=
  filter (fun s => Qle_bool fmin (fst s) && Qle_bool (fst s) fmax) df.

(** A Python [dict] with string keys: its items in insertion order. *)
Definition dict (V : Type) : Type := list (string * V).

(** [d[k]] *)
Fixpoint dict_getitem {V : Type} (d : dict V) (k : string) : result V :=
  match d with
  | [] => Raise KeyError
  | (k', v) :: d' => if (k' =? k)%string then Ok v else dict_getitem d' k
  end.

(** [d[k] = v]: replaces the value of a key that is there, else adds the
    item at the end. *)
Fixpoint dict_setitem {V : Type} (d : dict V) (k : string) (v : V) : dict V :=
  match d with
  | [] => [(k, v)]
  | (k', v') :: d' =>
      if (k' =? k)%string then (k', v) :: d'
      else (k', v') :: dict_setitem d' k v
  end.

(** The body shared by the four detectors: a scan of the interior
    indices [range(1, len(df) - 1)] of the columns [x], [y]. *)
Definition scan_positive (n : nat) (x y : list Q) (level : Q)
  : result (list Peak) :=
  for_each (range 1 (n - 1))
    (fun i peaks =>
       c <- py_and (a <- getitem y (i - 1) ;; b <- getitem y i ;;
                    Ok (Qlt_bool a b))
           (py_and (b <- getitem y i ;; d <- getitem y (i + 1) ;;
                    Ok (Qlt_bool d b))
                   (b <- getitem y i ;; Ok (Qle_bool level b))) ;;
       if c then
         xi <- getitem x i ;; yi <- getitem y i ;; Ok (peaks ++ [(xi, yi)])
       else Ok peaks)
    [].

Definition scan_negative (n : nat) (x y : list Q) (level : Q)
  : result (list Peak) :=
  for_each (range 1 (n - 1))
    (fun i peaks =>
       c <- py_and (a <- getitem y (i - 1) ;; b <- getitem y i ;;
                    Ok (Qlt_bool b a))
           (py_and (b <- getitem y i ;; d <- getitem y (i + 1) ;;
                    Ok (Qlt_bool b d))
                   (b <- getitem y i ;; Ok (Qle_bool b (- level)))) ;;
       if c then
         xi <- getitem x i ;; yi <- getitem y i ;; Ok (peaks ++ [(xi, yi)])
       else Ok peaks)
    [].

(** ** ModeVisualizerRun.py *)

Module ModeVisualizerRun.

(** [load_lvm_as_df(path, freq_scale)] from the line after [pd.read_csv]
    on: [rows] are the rows that were read.  The argument [freq_scale] is
    overwritten with 0.1 before it is used. *)
Definition load_lvm_as_df (rows : DataFrame) (freq_scale : Q) : DataFrame :=
  let df := rows in
  let freq_scale := 1 # 10 in
  let df := map (fun s => (fst s * freq_scale, snd s)) df in
  sort_values_freq df.

(** [find_positive_peaks(df, level)]; [df = None] is Python's [None]. *)
Definition find_positive_peaks (df : option DataFrame) (level : Q)
  : result (list Peak) :=
  match df with
  | None => Ok []
  | Some df =>
      if df_empty df || (length df <? 3)%nat then Ok []
      else
        let x := col_freq df in
        let y := col_imag df in
        scan_positive (length df) x y level
  end.

Definition find_negative_peaks (df : option DataFrame) (level : Q)
  : result (list Peak) :=
  match df with
  | None => Ok []
  | Some df =>
      if df_empty df || (length df <? 3)%nat then Ok []
      else
        let x := col_freq df in
        let y := col_imag df in
        scan_negative (length df) x y level
  end.

(** [sorted(pos + neg, key=lambda t: t[0])] *)
Definition peaks_from_df (df : option DataFrame) (level : Q)
  : result (list Peak) :=
  pos <- find_positive_peaks df level ;;
  neg <- find_negative_peaks df level ;;
  Ok (sorted_by fst (pos ++ neg)).

(** The first loop of [cluster_modes]: the arrays that are not [None]
    and not empty, in order. *)
Definition nonempty_arrays (all_peak_freqs : list (option (list Q)))
  : list (list Q) :=
  flat_map (fun arr =>
              match arr with
              | Some a => if (0 <? length a)%nat then [a] else []
              | None => []
              end)
           all_peak_freqs.

(** The second loop of [cluster_modes], from [clusters = [[flat[0]]]]
    on: [clusters[-1].append(f)] replaces the last cluster. *)
Definition cluster_pass (tol : Q) (flat : list Q)
  : result (list (list Q)) :=
  f0 <- getitem flat 0 ;;
  for_each (skipn 1 flat)
    (fun f clusters =>
       cur <- getitem_last clusters ;;
       m <- np_mean cur ;;
       if Qle_bool (Qabs (f - m)) tol
       then Ok (removelast clusters ++ [cur ++ [f]])
       else Ok (clusters ++ [[f]]))
    [[f0]].

(** [cluster_modes(all_peak_freqs, tol, min_count)] *)
Definition cluster_modes (all_peak_freqs : list (option (list Q)))
  (tol : Q) (min_count : Z) : result (list Q) :=
  let flat_list := nonempty_arrays all_peak_freqs in
  match flat_list with
  | [] => Ok []
  | _ :: _ =>
      flat <- np_concatenate flat_list ;;
      if (length flat =? 0)%nat then Ok []
      else
        let flat := sorted_by (fun v => v) flat in
        clusters <- cluster_pass tol flat ;;
        comprehension np_mean
          (filter (fun c => (min_count <=? Z.of_nat (length c))%Z)
                  clusters)
  end.

(** [value_at(freq, y, f0, df)] *)
Definition value_at (freq y : list Q) (f0 df : Q) : result Q :=
  let m := map (fun f => Qle_bool (f0 - df) f && Qle_bool f (f0 + df))
               freq in
  if np_any m then
    sel <- mask_select y m ;; np_max sel
  else
    idx <- np_argmin (map (fun f => Qabs (f - f0)) freq) ;;
    getitem y idx.

(** [self.dfs]: the loaded curves by channel key. *)
Definition Dfs : Type := string -> option DataFrame.

Definition dict_get (dfs : Dfs) (k : string) : result DataFrame :=
  match dfs k with
  | Some df => Ok df
  | None => Raise KeyError
  end.

(** [f"P{p}_{ex}_{m}"] *)
Definition channel_key (p : Z) (ex m : string) : string :=
  ("P" ++ NilZero.string_of_int (Z.to_int p) ++ "_" ++ ex ++ "_" ++ m)%string.

Definition vadd (v w : Q * Q) : Q * Q := (fst v + fst w, snd v + snd w).
Definition vscale (k : Q) (v : Q * Q) : Q * Q := (k * fst v, k * snd v).

(** [ModeVisualizer16.corner_vector(self, p, f0)]; [spin_win] is the
    value of the window spin box. *)
Definition corner_vector (dfs : Dfs) (spin_win : Q) (p : Z) (f0 : Q)
  : result (Q * Q) :=
  let v := (0, 0) in
  let dfw := spin_win in
  v <- for_each ["X"; "Y"]%string
         (fun ex v =>
            dfx <- dict_get dfs (channel_key p ex "x") ;;
            let fx := col_freq dfx in
            let yx := col_imag dfx in
            dfy <- dict_get dfs (channel_key p ex "y") ;;
            let fy := col_freq dfy in
            let yy := col_imag dfy in
            mx <- value_at fx yx f0 dfw ;;
            my <- value_at fy yy f0 dfw ;;
            Ok (vadd v (mx, my)))
         v ;;
  Ok (vscale (1 # 2) v).

End ModeVisualizerRun.

(** ** ModeAnalyzer.py *)

Module ModeAnalyzer.

(** [load_lvm_as_df(path, freq_scale)] from the line after [pd.read_csv]
    on; this program does not sort the rows when it loads them. *)
Definition load_lvm_as_df (rows : DataFrame) (freq_scale : Q) : DataFrame :=
  let df := rows in
  let freq_scale := 1 # 10 in
  map (fun s => (fst s * freq_scale, snd s)) df.

(** As in ModeVisualizerRun.py, after
    [df = df.sort_values("freq").reset_index(drop=True)];
    [sort_values] stands for pandas' [sort_values("freq")]. *)
Definition find_positive_peaks (sort_values : list (Q * Q) -> list (Q * Q))
  (df : option DataFrame) (level : Q) : result (list Peak) :=
  match df with
  | None => Ok []
  | Some df =>
      if df_empty df || (length df <? 3)%nat then Ok []
      else
        let df := sort_values df in
        let x := col_freq df in
        let y := col_imag df in
        scan_positive (length df) x y level
  end.

Definition find_negative_peaks (sort_values : list (Q * Q) -> list (Q * Q))
  (df : option DataFrame) (level : Q) : result (list Peak) :=
  match df with
  | None => Ok []
  | Some df =>
      if df_empty df || (length df <? 3)%nat then Ok []
      else
        let df := sort_values df in
        let x := col_freq df in
        let y := col_imag df in
        scan_negative (length df) x y level
  end.

(** The peak list that [LvmPlotGui.update_plot] computes for one file
    ([peaks_x], and in the same way [peaks_y]): load, restrict to
    [[f_min, f_max]], detect, sort by frequency. *)
Definition update_plot_peaks (sort_values : list (Q * Q) -> list (Q * Q))
  (rows : DataFrame) (f_min f_max level : Q) : result (list Peak) :=
  let df := load_lvm_as_df rows 1 in
  let df := filter_range f_min f_max df in
  pos <- find_positive_peaks sort_values (Some df) level ;;
  neg <- find_negative_peaks sort_values (Some df) level ;;
  Ok (sorted_by fst (pos ++ neg)).

End ModeAnalyzer.

(** ** The normalisation step of [ModeVisualizer16.draw_mode]

    [np.linalg.norm(u, axis=1)] takes a square root, so this step is
    embedded over the real numbers. *)

Module DrawMode.

Local Open Scope R_scope.

(** One row of [np.linalg.norm(u, axis=1)]. *)
Definition norm (v : R * R) : R := sqrt (fst v * fst v + snd v * snd v).

(** [np.max(a)] on real values; raises on no values *)
Definition np_max (a : list R) : result R :=
  match a with
  | [] => Raise ValueError
  | v :: a' =>
      Ok (fold_left (fun m w => if Rlt_dec m w then w else m) a' v)
  end.

(** [u / denom] *)
Definition vdiv (denom : R) (v : R * R) : R * R :=
  (fst v / denom, snd v / denom).

(** The lines of [draw_mode] under the comment "Normieren": from the
    displacement vectors [u] to [u_norm]. *)
Definition normalize (u : list (R * R)) : result (list (R * R)) :=
  denom <- np_max (map norm u) ;;
  let denom := if Rlt_dec denom 1e-12 then 1 else denom in
  Ok (map (vdiv denom) u).

(** [u = np.array([self.corner_vector(i, f0) for i in range(1, 5)])]
    followed by the normalisation. *)
Definition u_norm (dfs : ModeVisualizerRun.Dfs) (spin_win : Q) (f0 : Q)
  : result (list (R * R)) :=
  u <- comprehension
         (fun i => ModeVisualizerRun.corner_vector dfs spin_win i f0)
         (map Z.of_nat (range 1 5)) ;;
  normalize (map (fun v => (Q2R (fst v), Q2R (snd v))) u).

(** Python's [max(a, b)] on real values. *)
Definition py_max (a b : R) : R := if Rlt_dec a b then b else a.

(** [ModeVisualizer16._set_auto_view(u_norm, scale)]: the limits
    [(-margin, 1.0 + margin)] that are set for both axes. *)
Definition set_auto_view (u_norm : list (R * R)) (scale : R)
  : result (R * R) :=
  m <- np_max (map norm u_norm) ;;
  let max_def := scale * m in
  let margin := py_max (25 / 100) (12 / 10 * max_def) in
  Ok (- margin, 1 + margin).

(** [self.pts]: the corners of the undeformed frame. *)
Definition pts : list (R * R) := [(0, 0); (1, 0); (1, 1); (0, 1)].

(** [pts + s * u * a] for arrays with the same number of rows. *)
Fixpoint add_rows (pts u : list (R * R)) (s a : R)
  : result (list (R * R)) :=
  match pts, u with
  | [], [] => Ok []
  | p :: pts', v :: u' =>
      d <- add_rows pts' u' s a ;;
      Ok ((fst p + s * fst v * a, snd p + s * snd v * a) :: d)
  | _, _ => Raise ValueError
  end.

(** [self.pts + s * u_norm * a]: row by row; a single row of [u_norm] is
    broadcast to all rows, any other number of rows than that of [pts]
    is a shape error. *)
Definition deform (pts u_norm : list (R * R)) (s a : R)
  : result (list (R * R)) :=
  match u_norm with
  | [v] => add_rows pts (map (fun _ => v) pts) s a
  | _ => add_rows pts u_norm s a
  end.

(** The inner function [update(k)] of [draw_mode]: the closed polygon
    that is drawn in frame [k]. *)
Definition update (s : R) (u_norm : list (R * R)) (k : Z)
  : result (list (R * R)) :=
  let a := sin (2 * PI * IZR k / 60) in
  d <- deform pts u_norm s a ;;
  d0 <- getitem d 0 ;;
  Ok (d ++ [d0]).

(** [ModeVisualizer16.draw_mode(f0)] up to the call of
    [_set_auto_view]: the normalised field and the axis limits;
    [spin_scale] is the value of the scale spin box. *)
Definition draw_mode (dfs : ModeVisualizerRun.Dfs) (spin_win : Q)
  (spin_scale : R) (f0 : Q) : result (list (R * R) * (R * R)) :=
  u_norm <- u_norm dfs spin_win f0 ;;
  let s := spin_scale in
  view <- set_auto_view u_norm s ;;
  Ok (u_norm, view).

End DrawMode.

(** ** [cluster_modes] on binary64 floats

    The same statements of [cluster_modes] as in [ModeVisualizerRun], on
    the floats of the program, to show what rounding and overflow of a
    mean do.  The arrays hold no nan. *)

Module Binary64.

(** [r[j] += a[i + j]] for the eight accumulators. *)
Definition lane_add (r a : list float) : list float :=
  map (fun ra => PrimFloat.add (fst ra) (snd ra)) (combine r a).

(** The loop of numpy's [pairwise_sum] over the full blocks of eight
    values that follow the first eight. *)
Fixpoint lanes (fuel : nat) (r rest : list float)
  : list float * list float :=
  match fuel with
  | O => (r, rest)
  | S fuel' =>
      if (8 <=? length rest)%nat
      then lanes fuel' (lane_add r (firstn 8 rest)) (skipn 8 rest)
      else (r, rest)
  end.

Definition lane_total (r : list float) : float :=
  match r with
  | [r0; r1; r2; r3; r4; r5; r6; r7] =>
      PrimFloat.add
        (PrimFloat.add (PrimFloat.add r0 r1) (PrimFloat.add r2 r3))
        (PrimFloat.add (PrimFloat.add r4 r5) (PrimFloat.add r6 r7))
  | _ => fold_left PrimFloat.add r 0%float
  end.

(** numpy's [pairwise_sum] of a contiguous array: fewer than 8 values are
    added from left to right, up to 128 values in eight accumulators,
    more by halves.  [fuel] bounds the halving. *)
Fixpoint pairwise_sum (fuel : nat) (a : list float) : float :=
  let n := length a in
  if (n <? 8)%nat then fold_left PrimFloat.add a 0%float
  else if (n <=? 128)%nat then
    let rr := lanes n (firstn 8 a) (skipn 8 a) in
    fold_left PrimFloat.add (snd rr) (lane_total (fst rr))
  else
    match fuel with
    | O => fold_left PrimFloat.add a 0%float
    | S fuel' =>
        let n2 := (n / 2 - (n / 2) mod 8)%nat in
        PrimFloat.add (pairwise_sum fuel' (firstn n2 a))
                      (pairwise_sum fuel' (skipn n2 a))
    end.

(** [np.mean(c)]: the sum from the identity 0 on, divided by the count;
    nan on no values. *)
Definition np_mean (c : list float) : float :=
  PrimFloat.div
    (PrimFloat.add 0%float (pairwise_sum (length c) c))
    (PrimFloat.of_uint63 (Uint63.of_Z (Z.of_nat (length c)))).

(** [flat.sort()] *)
Fixpoint insert (x : float) (l : list float) : list float :=
  match l with
  | [] => [x]
  | y :: l' => if PrimFloat.ltb y x then y :: insert x l' else x :: l
  end.

Fixpoint np_sort (l : list float) : list float :=
  match l with
  | [] => []
  | x :: l' => insert x (np_sort l')
  end.

Definition nonempty_arrays (all_peak_freqs : list (option (list float)))
  : list (list float) :=
  flat_map (fun arr =>
              match arr with
              | Some a => if (0 <? length a)%nat then [a] else []
              | None => []
              end)
           all_peak_freqs.

Definition cluster_pass (tol : float) (flat : list float)
  : result (list (list float)) :=
  f0 <- getitem flat 0 ;;
  for_each (skipn 1 flat)
    (fun f clusters =>
       cur <- getitem_last clusters ;;
       let m := np_mean cur in
       if PrimFloat.leb (PrimFloat.abs (PrimFloat.sub f m)) tol
       then Ok (removelast clusters ++ [cur ++ [f]])
       else Ok (clusters ++ [[f]]))
    [[f0]].

Definition cluster_modes (all_peak_freqs : list (option (list float)))
  (tol : float) (min_count : Z) : result (list float) :=
  let flat_list := nonempty_arrays all_peak_freqs in
  match flat_list with
  | [] => Ok []
  | _ :: _ =>
      let flat := concat flat_list in
      if (length flat =? 0)%nat then Ok []
      else
        let flat := np_sort flat in
        clusters <- cluster_pass tol flat ;;
        Ok (map np_mean
                (filter (fun c => (min_count <=? Z.of_nat (length c))%Z)
                        clusters))
  end.

End Binary64.

(** ** The class [ModeVisualizer16] of ModeVisualizerRun.py *)

Module ModeVisualizer16.

(** [self.keys]: ["P{p}_{ex}_{m}"] for [p] in 1..4, [ex] in X, Y and [m]
    in x, y. *)
Definition keys : list string :=
  flat_map (fun p =>
              flat_map (fun ex =>
                          map (fun m => ModeVisualizerRun.channel_key p ex m)
                              ["x"; "y"]%string)
                       ["X"; "Y"]%string)
           (map Z.of_nat (range 1 5)).

(** The attributes of the window that the analysis reads and writes. *)
Record State : Type := {
  paths : dict string;
  dfs : dict (list (Q * Q));
  peaks : dict (list (Q * Q));
  modes : list Q
}.

(** [__init__]: no file chosen, nothing loaded. *)
Definition init : State :=
  {| paths := fold_left (fun d k => dict_setitem d k ""%string) keys [];
     dfs := [];
     peaks := [];
     modes := [] |}.

(** [select_file(key)], where [f] is the file name that the dialog
    returned (empty when the dialog was cancelled). *)
Definition select_file (st : State) (key f : string) : State :=
  if (f =? "")%string then st
  else {| paths := dict_setitem (paths st) key f;
          dfs := dfs st; peaks := peaks st; modes := modes st |}.

(** [clear_file(key)] *)
Definition clear_file (st : State) (key : string) : State :=
  {| paths := dict_setitem (paths st) key ""%string;
     dfs := dfs st; peaks := peaks st; modes := modes st |}.

(** [all(self.paths[k] for k in self.keys)] *)
Fixpoint all_chosen (paths : dict string) (ks : list string) : result bool :=
  match ks with
  | [] => Ok true
  | k :: ks' =>
      p <- dict_getitem paths k ;;
      if (p =? "")%string then Ok false else all_chosen paths ks'
  end.

(** [run_analysis] up to the computation of [self.modes]: the guard, the
    loading and filtering of the curves, the peaks of every curve and the
    clustering.  [read_csv] stands for [pd.read_csv] on the file system.
    The answer [false] is the early return after the warning. *)
Definition run_analysis (read_csv : string -> result (list (Q * Q)))
  (st : State) (fmin fmax level tol : Q) (minc : Z)
  : result (State * bool) :=
  ok <- all_chosen (paths st) keys ;;
  if negb ok then Ok (st, false)
  else
    dfs <- for_each (paths st)
             (fun kp dfs =>
                rows <- read_csv (snd kp) ;;
                let df := ModeVisualizerRun.load_lvm_as_df rows 1 in
                let df := filter_range fmin fmax df in
                Ok (dict_setitem dfs (fst kp) df))
             [] ;;
    r <- for_each dfs
           (fun kdf acc =>
              pk <- ModeVisualizerRun.peaks_from_df (Some (snd kdf)) level ;;
              let pf := map fst pk in
              Ok (dict_setitem (fst acc) (fst kdf) pk, snd acc ++ [Some pf]))
           ([], []) ;;
    modes <- ModeVisualizerRun.cluster_modes (snd r) tol minc ;;
    Ok ({| paths := paths st; dfs := dfs; peaks := fst r; modes := modes |},
        true).

(** [self.dfs[k]] as [corner_vector] reads it. *)
Definition as_dfs (d : dict (list (Q * Q))) : ModeVisualizerRun.Dfs :=
  fun k => match dict_getitem d k with
           | Ok df => Some df
           | Raise _ => None
           end.

(** [draw_frf]: the limits that are set for the two axes of the left
    plot, [None] where the method sets none. *)
Definition draw_frf (dfs : dict (list (Q * Q))) (fmin fmax : Q)
  : result (option (Q * Q) * option (Q * Q)) :=
  let xlim := if Qlt_bool fmin fmax then Some (fmin, fmax) else None in
  let all_y :=
    flat_map (fun kdf =>
                let yy := col_imag (snd kdf) in
                if (0 <? length yy)%nat then [yy] else [])
             dfs in
  match all_y with
  | [] => Ok (xlim, None)
  | _ :: _ =>
      ycat <- np_concatenate all_y ;;
      ymin <- np_min ycat ;;
      ymax <- np_max ycat ;;
      let yr := ymax - ymin in
      let pad := if Qlt_bool (1 # 1000000000000) yr then (1 # 10) * yr
                 else 1 # 1000 in
      Ok (xlim, Some (ymin - pad, ymax + pad))
  end.

End ModeVisualizer16.

(** ** The clustering rule as the specification words it *)

Module Spec.

(** "concatenate all frequencies across all channels into one flat
    list"; a channel without a list contributes nothing *)
Definition all_frequencies (lists : list (option (list Q))) : list Q :=
  flat_map (fun arr => match arr with Some a => a | None => [] end) lists.

(** "arithmetic mean of members" *)
Definition mean (c : list Q) : Q := Qsum c / Qlen c.

(** "for each subsequent value f, if |f - mean(current_cluster)| <=
    tolerance append to the current cluster, else close the current
    cluster and start a new one with f" *)
Fixpoint walk (tolerance : Q) (current : list Q) (rest : list Q)
  : list (list Q) :=
  match rest with
  | [] => [current]
  | f :: rest' =>
      if Qle_bool (Qabs (f - mean current)) tolerance
      then walk tolerance (current ++ [f]) rest'
      else current :: walk tolerance [f] rest'
  end.

(** "start a new cluster with the first value" *)
Definition clusters (tolerance : Q) (flat : list Q) : list (list Q) :=
  match flat with
  | [] => []
  | f :: rest => walk tolerance [f] rest
  end.

(** "A cluster survives only if its member count >= min_support" *)
Definition survives (min_support : Z) (c : list Q) : bool :=
  (min_support <=? Z.of_nat (length c))%Z.

(** "sort ascending", then the walk, then one mean per survivor *)
Definition cluster (lists : list (option (list Q))) (tolerance : Q)
  (min_support : Z) : list Q :=
  map mean
      (filter (survives min_support)
              (clusters tolerance
                        (sorted_by (fun v => v) (all_frequencies lists)))).

End Spec.

(** ** Predicates used in the statements *)

(** The value and the row at index [i] of a curve. *)
Definition value (df : DataFrame) (i : nat) : Q := snd (nth i df (0, 0)).
Definition frequency (df : DataFrame) (i : nat) : Q := fst (nth i df (0, 0)).
Definition sample (df : DataFrame) (i : nat) : Sample := nth i df (0, 0).

(** Interior sample [i] is a strict local maximum at or above [level]. *)
Definition positive_peak_at (df : DataFrame) (level : Q) (i : nat) : Prop :=
  (1 <= i <= length df - 2)%nat /\
  value df (i - 1) < value df i /\
  value df i > value df (i + 1) /\
  value df i >= level.

(** Interior sample [i] is a strict local minimum at or below [- level]. *)
Definition negative_peak_at (df : DataFrame) (level : Q) (i : nat) : Prop :=
  (1 <= i <= length df - 2)%nat /\
  value df (i - 1) > value df i /\
  value df i < value df (i + 1) /\
  value df i <= - level.

Definition positive_peak_b (df : DataFrame) (level : Q) (i : nat) : bool :=
  Qlt_bool (value df (i - 1)) (value df i)
  && (Qlt_bool (value df (i + 1)) (value df i)
      && Qle_bool level (value df i)).

Definition negative_peak_b (df : DataFrame) (level : Q) (i : nat) : bool :=
  Qlt_bool (value df i) (value df (i - 1))
  && (Qlt_bool (value df i) (value df (i + 1))
      && Qle_bool (value df i) (- level)).

(** A curve sorted ascending by frequency, and one without ties. *)
Definition ascending (df : DataFrame) : Prop :=
  Sorted (fun a b : Sample => fst a <= fst b) df.

Definition strictly_ascending (df : DataFrame) : Prop :=
  Sorted (fun a b : Sample => fst a < fst b) df.

(** What is assumed of pandas' [sort_values("freq")]: the result holds
    the same rows and is sorted ascending by frequency. *)
Definition sorts_by_frequency (sort_values : list (Q * Q) -> list (Q * Q))
  : Prop :=
  forall df, Permutation df (sort_values df) /\ ascending (sort_values df).

(** A sort by frequency that is not stable: rows of equal frequency come
    out in the reverse of their order. *)
Definition sort_values_reversing_ties (df : DataFrame) : DataFrame :=
  sorted_by fst (rev df).



(** No positive peak and negative peak share a frequency. *)
Definition no_shared_frequency (pos neg : list Peak) : Prop :=
  forall p q, In p pos -> In q neg -> ~ fst p == fst q.

(** A peak list sorted ascending by frequency. *)
Definition frequency_sorted (peaks : list Peak) : Prop :=
  Sorted (fun p q : Peak => fst p <= fst q) peaks.

(** A curve in which two neighbouring samples share the frequency 2. *)
Definition tied_curve : DataFrame := [(1, 0); (2, 5); (2, -5); (3, 0)].

(** The sample lies in the window [[target - window, target + window]]. *)
Definition in_window (target window : Q) (s : Sample) : Prop :=
  target - window <= fst s /\ fst s <= target + window.

Definition in_window_b (target window : Q) (s : Sample) : bool :=
  Qle_bool (target - window) (fst s) && Qle_bool (fst s) (target + window).

(** The distance of sample [i] from the target frequency. *)
Definition distance (df : DataFrame) (target : Q) (i : nat) : Q :=
  Qabs (frequency df i - target).

(** The four curves of corner 1, each with three samples. *)
Definition corner1_dfs : ModeVisualizerRun.Dfs :=
  fun k =>
    if (k =? "P1_X_x")%string then Some [(9, 1); (10, 4); (11, 2)]
    else if (k =? "P1_X_y")%string then Some [(9, 0); (10, -2); (11, -6)]
    else if (k =? "P1_Y_x")%string then Some [(9, 3); (10, 2); (11, 1)]
    else if (k =? "P1_Y_y")%string then Some [(9, 5); (10, 8); (11, 7)]
    else None.


(** The frequency lies in [[fmin, fmax]]. *)
Definition in_range (fmin fmax f : Q) : Prop := fmin <= f /\ f <= fmax.

(** The states of the window that the file buttons can produce: each of
    the 16 keys has a "select" and a "clear" button. *)
Inductive reachable : ModeVisualizer16.State -> Prop :=
| reach_init : reachable ModeVisualizer16.init
| reach_select (st : ModeVisualizer16.State) (key f : string) :
    reachable st -> In key ModeVisualizer16.keys ->
    reachable (ModeVisualizer16.select_file st key f)
| reach_clear (st : ModeVisualizer16.State) (key : string) :
    reachable st -> In key ModeVisualizer16.keys ->
    reachable (ModeVisualizer16.clear_file st key).

(** A file system in which every file holds the same five rows
    (frequencies in units of 0.1 Hz), and the state after a file was
    chosen for each of the 16 keys. *)
Definition five_rows (path : string) : result (list (Q * Q)) :=
  Ok [(300, 1); (100, 0); (200, 4); (400, -3); (900, 7)].

Definition all_chosen_state : ModeVisualizer16.State :=
  fold_left (fun st k => ModeVisualizer16.select_file st k (k ++ ".lvm"))
            ModeVisualizer16.keys ModeVisualizer16.init.

(** * Proofs *)

(** ** The error monad and the loops *)

Lemma Qlt_bool_iff (x y : Q) : Qlt_bool x y = true <-> x < y.
Proof.
  unfold Qlt_bool. rewrite negb_true_iff.
  split; intro H.
  - apply Qnot_le_lt. intro L. apply Qle_bool_iff in L. congruence.
  - destruct (Qle_bool y x) eqn:E; [|reflexivity].
    apply Qle_bool_iff in E. exfalso. apply (Qlt_not_le _ _ H E).
Qed.

Lemma Qlt_bool_false_iff (x y : Q) : Qlt_bool x y = false <-> y <= x.
Proof.
  unfold Qlt_bool. rewrite negb_false_iff. apply Qle_bool_iff.
Qed.

Lemma getitem_nth (A : Type) (a : list A) (i : nat) (d : A) :
  (i < length a)%nat -> getitem a i = Ok (nth i a d).
Proof.
  intro H. unfold getitem.
  rewrite (nth_error_nth' a d H). reflexivity.
Qed.

(** ** The scan of the interior indices *)

Section Scan.
Variable df : DataFrame.
Variable level : Q.

Let n := length df.
Let x := col_freq df.
Let y := col_imag df.

Lemma col_imag_item (i : nat) :
  (i < n)%nat -> getitem y i = Ok (value df i).
Proof.
  intro H. unfold y, col_imag, value.
  rewrite (getitem_nth (map snd df) (snd (0, 0))).
  - rewrite map_nth. reflexivity.
  - rewrite length_map. exact H.
Qed.

Lemma col_freq_item (i : nat) :
  (i < n)%nat -> getitem x i = Ok (frequency df i).
Proof.
  intro H. unfold x, col_freq, frequency.
  rewrite (getitem_nth (map fst df) (fst (0, 0))).
  - rewrite map_nth. reflexivity.
  - rewrite length_map. exact H.
Qed.

Lemma sample_eq (i : nat) : sample df i = (frequency df i, value df i).
Proof. unfold sample, frequency, value. apply surjective_pairing. Qed.

(** Over indices that have both neighbours the loop cannot raise, and it
    appends the samples that pass the test, in order. *)
Lemma scan_loop_positive (idx : list nat) (acc : list Peak) :
  Forall (fun i => 1 <= i /\ i + 1 < n)%nat idx ->
  for_each idx
    (fun i peaks =>
       c <- py_and (a <- getitem y (i - 1) ;; b <- getitem y i ;;
                    Ok (Qlt_bool a b))
           (py_and (b <- getitem y i ;; d <- getitem y (i + 1) ;;
                    Ok (Qlt_bool d b))
                   (b <- getitem y i ;; Ok (Qle_bool level b))) ;;
       if c then
         xi <- getitem x i ;; yi <- getitem y i ;; Ok (peaks ++ [(xi, yi)])
       else Ok peaks)
    acc
  = Ok (acc ++ map (sample df) (filter (positive_peak_b df level) idx)).
Proof.
  intro H. revert acc.
  induction H as [|i idx [H1 H2] _ IH]; intro acc; simpl.
  - rewrite app_nil_r. reflexivity.
  - rewrite !col_imag_item, col_freq_item by lia. simpl.
    unfold positive_peak_b.
    destruct (Qlt_bool (value df (i - 1)) (value df i)); simpl;
      [|apply IH].
    destruct (Qlt_bool (value df (i + 1)) (value df i)); simpl;
      [|apply IH].
    destruct (Qle_bool level (value df i)); simpl; [|apply IH].
    rewrite IH, <- app_assoc, sample_eq. reflexivity.
Qed.

Lemma scan_loop_negative (idx : list nat) (acc : list Peak) :
  Forall (fun i => 1 <= i /\ i + 1 < n)%nat idx ->
  for_each idx
    (fun i peaks =>
       c <- py_and (a <- getitem y (i - 1) ;; b <- getitem y i ;;
                    Ok (Qlt_bool b a))
           (py_and (b <- getitem y i ;; d <- getitem y (i + 1) ;;
                    Ok (Qlt_bool b d))
                   (b <- getitem y i ;; Ok (Qle_bool b (- level)))) ;;
       if c then
         xi <- getitem x i ;; yi <- getitem y i ;; Ok (peaks ++ [(xi, yi)])
       else Ok peaks)
    acc
  = Ok (acc ++ map (sample df) (filter (negative_peak_b df level) idx)).
Proof.
  intro H. revert acc.
  induction H as [|i idx [H1 H2] _ IH]; intro acc; simpl.
  - rewrite app_nil_r. reflexivity.
  - rewrite !col_imag_item, col_freq_item by lia. simpl.
    unfold negative_peak_b.
    destruct (Qlt_bool (value df i) (value df (i - 1))); simpl;
      [|apply IH].
    destruct (Qlt_bool (value df i) (value df (i + 1))); simpl;
      [|apply IH].
    destruct (Qle_bool (value df i) (- level)); simpl; [|apply IH].
    rewrite IH, <- app_assoc, sample_eq. reflexivity.
Qed.

Lemma interior_range :
  Forall (fun i => 1 <= i /\ i + 1 < n)%nat (range 1 (n - 1)).
Proof.
  apply Forall_forall. intros i Hi. unfold range in Hi.
  apply in_seq in Hi. lia.
Qed.

Lemma scan_positive_eq :
  scan_positive n x y level
  = Ok (map (sample df)
            (filter (positive_peak_b df level) (range 1 (n - 1)))).
Proof.
  exact (scan_loop_positive [] interior_range).
Qed.

Lemma scan_negative_eq :
  scan_negative n x y level
  = Ok (map (sample df)
            (filter (negative_peak_b df level) (range 1 (n - 1)))).
Proof.
  exact (scan_loop_negative [] interior_range).
Qed.

Lemma positive_peak_b_iff (i : nat) :
  In i (filter (positive_peak_b df level) (range 1 (n - 1)))
  <-> positive_peak_at df level i.
Proof.
  rewrite filter_In. unfold range, positive_peak_at, positive_peak_b.
  rewrite in_seq, !andb_true_iff, !Qlt_bool_iff, Qle_bool_iff.
  fold n. unfold Qge, Qgt. intuition lia.
Qed.

Lemma negative_peak_b_iff (i : nat) :
  In i (filter (negative_peak_b df level) (range 1 (n - 1)))
  <-> negative_peak_at df level i.
Proof.
  rewrite filter_In. unfold range, negative_peak_at, negative_peak_b.
  rewrite in_seq, !andb_true_iff, !Qlt_bool_iff, Qle_bool_iff.
  fold n. unfold Qge, Qgt. intuition lia.
Qed.
End Scan.

(** ** Lists of increasing indices *)

Lemma StronglySorted_filter (A : Type) (R : A -> A -> Prop)
  (p : A -> bool) (l : list A) :
  StronglySorted R l -> StronglySorted R (filter p l).
Proof.
  induction 1 as [|a l Hl IH Ha]; simpl.
  - constructor.
  - destruct (p a); [|exact IH].
    constructor; [exact IH|].
    apply Forall_forall. intros b Hb. apply filter_In in Hb.
    rewrite Forall_forall in Ha. apply Ha, Hb.
Qed.

Lemma StronglySorted_seq (start len : nat) :
  StronglySorted lt (seq start len).
Proof.
  revert start. induction len as [|len IH]; intro start; simpl.
  - constructor.
  - constructor; [apply IH|].
    apply Forall_forall. intros i Hi. apply in_seq in Hi. lia.
Qed.

(** ** The detectors of ModeVisualizerRun.py *)

Lemma guard_short (df : DataFrame) :
  (length df < 3)%nat -> df_empty df || (length df <? 3)%nat = true.
Proof.
  intro H. apply orb_true_iff. right. apply Nat.ltb_lt, H.
Qed.

Lemma guard_long (df : DataFrame) :
  (3 <= length df)%nat -> df_empty df || (length df <? 3)%nat = false.
Proof.
  intro H. apply orb_false_iff. split.
  - destruct df; [simpl in H; lia | reflexivity].
  - apply Nat.ltb_ge, H.
Qed.

Lemma no_interior (df : DataFrame) :
  (length df < 3)%nat -> range 1 (length df - 1) = [].
Proof.
  intro H. unfold range.
  replace (length df - 1 - 1)%nat with 0%nat by lia. reflexivity.
Qed.

Lemma find_positive_peaks_eq (df : DataFrame) (level : Q) :
  ModeVisualizerRun.find_positive_peaks (Some df) level
  = Ok (map (sample df)
            (filter (positive_peak_b df level) (range 1 (length df - 1)))).
Proof.
  unfold ModeVisualizerRun.find_positive_peaks.
  destruct (Nat.lt_ge_cases (length df) 3) as [H|H].
  - rewrite (guard_short df H), (no_interior df H). reflexivity.
  - rewrite (guard_long df H). apply scan_positive_eq.
Qed.

Lemma find_negative_peaks_eq (df : DataFrame) (level : Q) :
  ModeVisualizerRun.find_negative_peaks (Some df) level
  = Ok (map (sample df)
            (filter (negative_peak_b df level) (range 1 (length df - 1)))).
Proof.
  unfold ModeVisualizerRun.find_negative_peaks.
  destruct (Nat.lt_ge_cases (length df) 3) as [H|H].
  - rewrite (guard_short df H), (no_interior df H). reflexivity.
  - rewrite (guard_long df H). apply scan_negative_eq.
Qed.

Lemma plateau_no_peak (df : DataFrame) (level : Q) (i : nat) :
  value df (i - 1) == value df i \/ value df i == value df (i + 1) ->
  ~ positive_peak_at df level i /\ ~ negative_peak_at df level i.
Proof.
  intros [E|E]; split; intro H; destruct H as (_ & H1 & H2 & _); lra.
Qed.

(** C2.  For every curve and every level, [find_positive_peaks] returns
    exactly the interior samples [i] (with [1 <= i <= n - 2]) that satisfy
    [value[i-1] < value[i]], [value[i] > value[i+1]] and
    [value[i] >= level], in index order and each once, and
    [find_negative_peaks] returns exactly those with
    [value[i-1] > value[i]], [value[i] < value[i+1]] and
    [value[i] <= - level].  Both neighbour tests are strict: a sample equal
    to a neighbour is no peak of either kind.  Neither the sorting of the
    curve nor its length is needed for this. *)
Theorem detectors_return_exactly_the_peaks (df : DataFrame) (level : Q) :
  (exists idx : list nat,
      ModeVisualizerRun.find_positive_peaks (Some df) level
      = Ok (map (sample df) idx)
      /\ StronglySorted lt idx
      /\ forall i, In i idx <-> positive_peak_at df level i)
  /\ (exists idx : list nat,
         ModeVisualizerRun.find_negative_peaks (Some df) level
         = Ok (map (sample df) idx)
         /\ StronglySorted lt idx
         /\ forall i, In i idx <-> negative_peak_at df level i)
  /\ (forall i,
         value df (i - 1) == value df i \/ value df i == value df (i + 1) ->
         ~ positive_peak_at df level i /\ ~ negative_peak_at df level i).
Proof.
  split; [|split].
  - exists (filter (positive_peak_b df level) (range 1 (length df - 1))).
    split; [apply find_positive_peaks_eq|]. split.
    + apply StronglySorted_filter, StronglySorted_seq.
    + apply positive_peak_b_iff.
  - exists (filter (negative_peak_b df level) (range 1 (length df - 1))).
    split; [apply find_negative_peaks_eq|]. split.
    + apply StronglySorted_filter, StronglySorted_seq.
    + apply negative_peak_b_iff.
  - apply plateau_no_peak.
Qed.

(** A flat-topped plateau between lower values yields no peak. *)
Example plateau_example :
  ModeVisualizerRun.find_positive_peaks
    (Some [(1, 0); (2, 4); (3, 4); (4, 0)]) 1 = Ok [].
Proof. reflexivity. Qed.

(** A single spike yields exactly that sample. *)
Example spike_example :
  ModeVisualizerRun.find_positive_peaks
    (Some [(1, 0); (2, 1); (3, 7); (4, 2); (5, 0)]) 3 = Ok [(3, 7)]
  /\ ModeVisualizerRun.find_negative_peaks
       (Some [(1, 0); (2, 1); (3, 7); (4, 2); (5, 0)]) 3 = Ok [].
Proof. split; reflexivity. Qed.

(** C5.  For every curve with fewer than 3 samples (the empty curve
    included) and every level, the positive and the negative detector of
    both programs return the empty list and raise nothing; in
    ModeAnalyzer.py whatever [sort_values] does, since it is not
    reached. *)
Theorem short_curve_has_no_peaks
  (sort_values : list (Q * Q) -> list (Q * Q)) (df : DataFrame) (level : Q) :
  (length df < 3)%nat ->
  ModeVisualizerRun.find_positive_peaks (Some df) level = Ok []
  /\ ModeVisualizerRun.find_negative_peaks (Some df) level = Ok []
  /\ ModeAnalyzer.find_positive_peaks sort_values (Some df) level = Ok []
  /\ ModeAnalyzer.find_negative_peaks sort_values (Some df) level = Ok [].
Proof.
  intro H.
  unfold ModeVisualizerRun.find_positive_peaks,
    ModeVisualizerRun.find_negative_peaks,
    ModeAnalyzer.find_positive_peaks, ModeAnalyzer.find_negative_peaks.
  rewrite (guard_short df H). repeat split; reflexivity.
Qed.

Lemma short_curve_has_no_peaks_witness :
  (length [(1, 2); (2, 3)] < 3)%nat
  /\ ModeVisualizerRun.find_positive_peaks (Some [(1, 2); (2, 3)]) 0 = Ok []
  /\ ModeVisualizerRun.find_negative_peaks (Some [(1, 2); (2, 3)]) 0 = Ok []
  /\ ModeAnalyzer.find_positive_peaks sort_values_freq
       (Some [(1, 2); (2, 3)]) 0 = Ok []
  /\ ModeAnalyzer.find_negative_peaks sort_values_freq
       (Some [(1, 2); (2, 3)]) 0 = Ok [].
Proof.
  split; [simpl; lia|].
  apply (short_curve_has_no_peaks sort_values_freq [(1, 2); (2, 3)] 0).
  simpl; lia.
Defined.

(** A missing frame ([None]) is answered like a short curve. *)
Lemma no_frame_has_no_peaks
  (sort_values : list (Q * Q) -> list (Q * Q)) (level : Q) :
  ModeVisualizerRun.find_positive_peaks None level = Ok []
  /\ ModeVisualizerRun.find_negative_peaks None level = Ok []
  /\ ModeAnalyzer.find_positive_peaks sort_values None level = Ok []
  /\ ModeAnalyzer.find_negative_peaks sort_values None level = Ok [].
Proof. repeat split; reflexivity. Qed.

(** ** The stable sort *)

Section StableSortFacts.
Variable A : Type.
Variable key : A -> Q.

Let le (a b : A) : Prop := key a <= key b.
Let lt (a b : A) : Prop := key a < key b.

Lemma insert_by_perm (x : A) (l : list A) :
  Permutation (x :: l) (insert_by key x l).
Proof.
  induction l as [|y l IH]; simpl.
  - apply Permutation_refl.
  - destruct (Qlt_bool (key y) (key x)).
    + apply perm_trans with (y :: x :: l); [apply perm_swap|].
      apply perm_skip, IH.
    + apply Permutation_refl.
Qed.

Lemma sorted_by_perm (l : list A) : Permutation l (sorted_by key l).
Proof.
  induction l as [|x l IH]; simpl.
  - apply perm_nil.
  - apply perm_trans with (x :: sorted_by key l).
    + apply perm_skip, IH.
    + apply insert_by_perm.
Qed.

Lemma insert_by_hd (a x : A) (l : list A) :
  le a x -> HdRel le a l -> HdRel le a (insert_by key x l).
Proof.
  intros Hax Hal. destruct l as [|y l]; simpl.
  - constructor. exact Hax.
  - destruct (Qlt_bool (key y) (key x)); constructor.
    + apply HdRel_inv in Hal. exact Hal.
    + exact Hax.
Qed.

Lemma insert_by_sorted (x : A) (l : list A) :
  Sorted le l -> Sorted le (insert_by key x l).
Proof.
  induction 1 as [|y l Hl IH Hy]; simpl.
  - repeat constructor.
  - destruct (Qlt_bool (key y) (key x)) eqn:E.
    + constructor; [exact IH|].
      apply insert_by_hd; [|exact Hy].
      apply Qlt_bool_iff in E. apply Qlt_le_weak, E.
    + apply Qlt_bool_false_iff in E.
      repeat constructor; assumption.
Qed.

Lemma sorted_by_sorted (l : list A) : Sorted le (sorted_by key l).
Proof.
  induction l as [|x l IH]; simpl.
  - constructor.
  - apply insert_by_sorted, IH.
Qed.

(** Sorting a list that is already in order changes nothing. *)
Lemma sorted_by_id (l : list A) : Sorted le l -> sorted_by key l = l.
Proof.
  induction 1 as [|x l Hl IH Hx]; simpl.
  - reflexivity.
  - rewrite IH. destruct Hx as [|y l Hxy]; simpl.
    + reflexivity.
    + apply Qlt_bool_false_iff in Hxy. rewrite Hxy. reflexivity.
Qed.

Lemma le_strongly (l : list A) : Sorted le l -> StronglySorted le l.
Proof.
  apply Sorted_StronglySorted.
  intros a b c Hab Hbc. unfold le in *. apply Qle_trans with (key b); assumption.
Qed.

Lemma lt_strongly (l : list A) : Sorted lt l -> StronglySorted lt l.
Proof.
  apply Sorted_StronglySorted.
  intros a b c Hab Hbc. unfold lt in *. apply Qlt_trans with (key b); assumption.
Qed.

(** A list with strictly increasing keys has one ordering only: every
    sorted rearrangement of it is the list itself, whatever the sorting
    method does with ties. *)
Lemma sorted_perm_unique (l' : list A) :
  StronglySorted lt l' ->
  forall l, Sorted le l -> Permutation l l' -> l = l'.
Proof.
  induction 1 as [|x t' Ht' IH Hx]; intros l Hl HP.
  - apply Permutation_sym, Permutation_nil in HP. exact HP.
  - destruct l as [|y t].
    + apply Permutation_nil in HP. discriminate.
    + assert (Hyx : y = x).
      { assert (Hy : In y (x :: t')).
        { apply (Permutation_in _ HP). left. reflexivity. }
        destruct Hy as [Hy|Hy]; [symmetry; exact Hy|exfalso].
        rewrite Forall_forall in Hx. specialize (Hx y Hy).
        assert (Hxl : In x (y :: t)).
        { apply (Permutation_in _ (Permutation_sym HP)). left. reflexivity. }
        destruct Hxl as [Hxl|Hxl].
        - subst y. exact (Qlt_irrefl _ Hx).
        - apply le_strongly, StronglySorted_inv in Hl.
          destruct Hl as [_ Hl]. rewrite Forall_forall in Hl.
          specialize (Hl x Hxl). unfold le, lt in *.
          apply (Qlt_not_le _ _ Hx Hl). }
      subst y. f_equal.
      apply IH.
      * apply Sorted_inv in Hl. apply Hl.
      * apply Permutation_cons_inv with x. exact HP.
Qed.

Lemma strongly_nth (l : list A) (d : A) :
  StronglySorted lt l ->
  forall i j, (i < j < length l)%nat -> lt (nth i l d) (nth j l d).
Proof.
  induction 1 as [|x l Hl IH Hx]; intros i j Hij; simpl in Hij.
  - lia.
  - destruct j as [|j]; [lia|]. destruct i as [|i]; simpl.
    + rewrite Forall_forall in Hx. apply Hx, nth_In. lia.
    + apply IH. lia.
Qed.
End StableSortFacts.

(** ** ModeAnalyzer.py against ModeVisualizerRun.py *)

Lemma sort_values_freq_id (df : DataFrame) :
  ascending df -> sort_values_freq df = df.
Proof. apply sorted_by_id. Qed.

(** On a curve without ties the re-sort cannot matter: every rearrangement
    of the rows that is sorted by frequency is the curve itself. *)
Lemma resort_without_ties (df df' : DataFrame) :
  strictly_ascending df -> Permutation df' df -> ascending df' -> df' = df.
Proof.
  intros Hs HP Ha.
  exact (sorted_perm_unique fst (lt_strongly fst Hs) Ha HP).
Qed.

(** The insertion sort is one sort by frequency. *)
Lemma sort_values_freq_sorts : sorts_by_frequency sort_values_freq.
Proof.
  intro df. split.
  - apply (sorted_by_perm (fst (A := Q) (B := Q))).
  - apply (sorted_by_sorted (fst (A := Q) (B := Q))).
Qed.

(** The sort that reverses tied rows is another. *)
Lemma sort_values_reversing_ties_sorts :
  sorts_by_frequency sort_values_reversing_ties.
Proof.
  intro df. unfold sort_values_reversing_ties. split.
  - eapply Permutation_trans; [apply Permutation_rev|].
    apply (sorted_by_perm (fst (A := Q) (B := Q))).
  - apply (sorted_by_sorted (fst (A := Q) (B := Q))).
Qed.





(** With a sort that leaves tied rows in their order the two programs
    agree on every curve sorted ascending. *)
Lemma analyzer_agrees_under_a_stable_sort (df : DataFrame) (level : Q) :
  ascending df ->
  ModeAnalyzer.find_positive_peaks sort_values_freq (Some df) level
  = ModeVisualizerRun.find_positive_peaks (Some df) level
  /\ ModeAnalyzer.find_negative_peaks sort_values_freq (Some df) level
     = ModeVisualizerRun.find_negative_peaks (Some df) level.
Proof.
  intro H.
  unfold ModeAnalyzer.find_positive_peaks, ModeAnalyzer.find_negative_peaks,
    ModeVisualizerRun.find_positive_peaks,
    ModeVisualizerRun.find_negative_peaks.
  rewrite (sort_values_freq_id H). split; reflexivity.
Qed.

(** On an unsorted curve the two programs differ: ModeAnalyzer.py scans
    the sorted rows. *)
Example analyzer_differs_on_unsorted_curve :
  ModeAnalyzer.find_positive_peaks sort_values_freq
    (Some [(3, 0); (1, 5); (2, 0)]) 1 = Ok []
  /\ ModeVisualizerRun.find_positive_peaks (Some [(3, 0); (1, 5); (2, 0)]) 1
     = Ok [(1, 5)].
Proof. split; reflexivity. Qed.

(** ** The combined peak list *)

Lemma peak_not_both (df : DataFrame) (level : Q) (i : nat) :
  ~ (positive_peak_at df level i /\ negative_peak_at df level i).
Proof.
  intros [(_ & H1 & _) (_ & H2 & _)]. lra.
Qed.

Lemma strictly_ascending_frequency (df : DataFrame) (i j : nat) :
  strictly_ascending df -> (i < j < length df)%nat ->
  frequency df i < frequency df j.
Proof.
  intros H Hij. unfold frequency.
  exact (strongly_nth fst (0, 0) (lt_strongly fst H) Hij).
Qed.

Lemma peaks_of_distinct_samples (df : DataFrame) (level : Q) :
  strictly_ascending df ->
  forall i j, positive_peak_at df level i -> negative_peak_at df level j ->
              ~ frequency df i == frequency df j.
Proof.
  intros H i j Hi Hj E.
  destruct (Nat.lt_trichotomy i j) as [L|[L|L]].
  - assert (F := @strictly_ascending_frequency df i j H).
    destruct Hj as [Hj _]. specialize (F ltac:(lia)). lra.
  - subst j. exact (peak_not_both (conj Hi Hj)).
  - assert (F := @strictly_ascending_frequency df j i H).
    destruct Hi as [Hi _]. specialize (F ltac:(lia)). lra.
Qed.

(** C6, as the code has it.  For every curve and level, [peaks_from_df]
    returns the positive peaks followed by the negative peaks, rearranged
    into ascending order of frequency; no sample is both a positive and a
    negative peak; and when no two samples of the curve share a frequency
    (the curve is strictly ascending), no positive peak and negative peak
    of the list share a frequency. *)
Theorem combined_peaks_sorted_union (df : DataFrame) (level : Q) :
  exists pos neg combined : list Peak,
    ModeVisualizerRun.find_positive_peaks (Some df) level = Ok pos
    /\ ModeVisualizerRun.find_negative_peaks (Some df) level = Ok neg
    /\ ModeVisualizerRun.peaks_from_df (Some df) level = Ok combined
    /\ Permutation (pos ++ neg) combined
    /\ frequency_sorted combined
    /\ (forall i, ~ (positive_peak_at df level i
                     /\ negative_peak_at df level i))
    /\ (strictly_ascending df -> no_shared_frequency pos neg).
Proof.
  set (pos := map (sample df)
                  (filter (positive_peak_b df level)
                          (range 1 (length df - 1)))).
  set (neg := map (sample df)
                  (filter (negative_peak_b df level)
                          (range 1 (length df - 1)))).
  exists pos, neg, (sorted_by fst (pos ++ neg)).
  assert (Hp := find_positive_peaks_eq df level).
  assert (Hn := find_negative_peaks_eq df level).
  fold pos in Hp. fold neg in Hn.
  split; [exact Hp|]. split; [exact Hn|]. split.
  { unfold ModeVisualizerRun.peaks_from_df. rewrite Hp, Hn. reflexivity. }
  split; [apply sorted_by_perm|].
  split; [apply sorted_by_sorted|].
  split; [intro i; apply peak_not_both|].
  intros Hs p q Hpin Hqin.
  apply in_map_iff in Hpin. destruct Hpin as (i & <- & Hi).
  apply in_map_iff in Hqin. destruct Hqin as (j & <- & Hj).
  apply positive_peak_b_iff in Hi. apply negative_peak_b_iff in Hj.
  apply (peaks_of_distinct_samples Hs Hi Hj).
Qed.

Lemma combined_peaks_sorted_union_witness :
  strictly_ascending [(1, 0); (2, 5); (3, -5); (4, 0)]
  /\ exists pos neg combined : list Peak,
      ModeVisualizerRun.find_positive_peaks
        (Some [(1, 0); (2, 5); (3, -5); (4, 0)]) 1 = Ok pos
      /\ ModeVisualizerRun.find_negative_peaks
           (Some [(1, 0); (2, 5); (3, -5); (4, 0)]) 1 = Ok neg
      /\ ModeVisualizerRun.peaks_from_df
           (Some [(1, 0); (2, 5); (3, -5); (4, 0)]) 1 = Ok combined
      /\ no_shared_frequency pos neg.
Proof.
  assert (H : strictly_ascending [(1, 0); (2, 5); (3, -5); (4, 0)]).
  { unfold strictly_ascending. repeat constructor; simpl; lra. }
  split; [exact H|].
  destruct (combined_peaks_sorted_union [(1, 0); (2, 5); (3, -5); (4, 0)] 1)
    as (pos & neg & combined & Hp & Hn & Hc & _ & _ & _ & Hd).
  exists pos, neg, combined. auto.
Defined.

(** C6, as the claim has it, fails on a curve that is sorted ascending but
    has two samples at one frequency: in [tied_curve] the sample [(2, 5)]
    is a positive peak and its neighbour [(2, -5)] a negative one, and the
    combined list holds both. *)
Lemma tied_curve_shares_a_frequency :
  ascending tied_curve
  /\ ModeVisualizerRun.find_positive_peaks (Some tied_curve) 1 = Ok [(2, 5)]
  /\ ModeVisualizerRun.find_negative_peaks (Some tied_curve) 1 = Ok [(2, -5)]
  /\ ModeVisualizerRun.peaks_from_df (Some tied_curve) 1
     = Ok [(2, 5); (2, -5)]
  /\ ~ no_shared_frequency [(2, 5)] [(2, -5)].
Proof.
  split.
  { unfold ascending, tied_curve. repeat constructor; simpl; lra. }
  repeat split; try reflexivity.
  intro H. apply (H (2, 5) (2, -5)); simpl; auto. reflexivity.
Qed.

(** ** [value_at] *)

Lemma in_window_b_iff (target window : Q) (s : Sample) :
  in_window_b target window s = true <-> in_window target window s.
Proof.
  unfold in_window_b, in_window.
  rewrite andb_true_iff, !Qle_bool_iff. reflexivity.
Qed.

Lemma mask_filter_rows (b : Q -> bool) (df : DataFrame) :
  mask_filter (col_imag df) (map b (col_freq df))
  = map snd (filter (fun s => b (fst s)) df).
Proof.
  induction df as [|s df IH]; simpl.
  - reflexivity.
  - destruct (b (fst s)); simpl; rewrite IH; reflexivity.
Qed.

Lemma mask_select_rows (b : Q -> bool) (df : DataFrame) :
  mask_select (col_imag df) (map b (col_freq df))
  = Ok (map snd (filter (fun s => b (fst s)) df)).
Proof.
  unfold mask_select.
  replace (length (col_imag df) =? length (map b (col_freq df)))%nat
    with true.
  - rewrite mask_filter_rows. reflexivity.
  - symmetry. apply Nat.eqb_eq.
    unfold col_imag, col_freq. rewrite !length_map. reflexivity.
Qed.

Lemma np_any_rows (b : Q -> bool) (df : DataFrame) :
  np_any (map b (col_freq df))
  = negb (df_empty (filter (fun s => b (fst s)) df)).
Proof.
  induction df as [|s df IH]; simpl.
  - reflexivity.
  - destruct (b (fst s)); simpl; [reflexivity | exact IH].
Qed.

(** [value_at] on the two columns of a curve, by cases on the window. *)
Lemma value_at_rows (df : DataFrame) (target window : Q) :
  ModeVisualizerRun.value_at (col_freq df) (col_imag df) target window
  = match filter (in_window_b target window) df with
    | [] => idx <- np_argmin (map (fun f => Qabs (f - target)) (col_freq df)) ;;
            getitem (col_imag df) idx
    | sel => np_max (map snd sel)
    end.
Proof.
  unfold ModeVisualizerRun.value_at.
  rewrite np_any_rows, mask_select_rows.
  change (fun s : Q * Q => Qle_bool (target - window) (fst s)
                           && Qle_bool (fst s) (target + window))
    with (in_window_b target window).
  destruct (filter (in_window_b target window) df); reflexivity.
Qed.

Lemma fold_max_spec (a : list Q) (v : Q) :
  let m := fold_left (fun m w => if Qlt_bool m w then w else m) a v in
  In m (v :: a) /\ forall w, In w (v :: a) -> w <= m.
Proof.
  revert v. induction a as [|u a IH]; intro v; simpl.
  - split; [left; reflexivity|]. intros w [<-|[]]. apply Qle_refl.
  - destruct (Qlt_bool v u) eqn:E.
    + destruct (IH u) as [Hin Hmax]. split.
      * right. exact Hin.
      * intros w [<-|Hw]; [|apply Hmax, Hw].
        apply Qlt_bool_iff in E.
        apply Qle_trans with u; [apply Qlt_le_weak, E|].
        apply Hmax. left. reflexivity.
    + destruct (IH v) as [Hin Hmax]. split.
      * destruct Hin as [Hin|Hin]; [left; exact Hin | right; right; exact Hin].
      * intros w [<-|[<-|Hw]].
        -- apply Hmax. left. reflexivity.
        -- apply Qlt_bool_false_iff in E.
           apply Qle_trans with v; [exact E|].
           apply Hmax. left. reflexivity.
        -- apply Hmax. right. exact Hw.
Qed.

Lemma np_max_spec (a : list Q) :
  a <> [] ->
  exists m, np_max a = Ok m /\ In m a /\ forall w, In w a -> w <= m.
Proof.
  destruct a as [|v a]; [congruence|]. intros _.
  eexists. split; [reflexivity|]. apply fold_max_spec.
Qed.

Lemma argmin_from_spec (a pre : list Q) (best : nat) (bv : Q) :
  (best < length pre)%nat ->
  bv = nth best pre 0 ->
  (forall j, (j < length pre)%nat -> bv <= nth j pre 0) ->
  (forall j, (j < best)%nat -> bv < nth j pre 0) ->
  let r := argmin_from a (length pre) best bv in
  let all := pre ++ a in
  (r < length all)%nat
  /\ (forall j, (j < length all)%nat -> nth r all 0 <= nth j all 0)
  /\ (forall j, (j < r)%nat -> nth r all 0 < nth j all 0).
Proof.
  revert pre best bv.
  induction a as [|v a IH]; intros pre best bv Hb Hbv Hle Hlt; simpl.
  - rewrite app_nil_r. subst bv. auto.
  - assert (Hlen : S (length pre) = length (pre ++ [v])).
    { rewrite length_app. simpl. lia. }
    assert (Happ : pre ++ v :: a = (pre ++ [v]) ++ a).
    { rewrite <- app_assoc. reflexivity. }
    rewrite Hlen, Happ.
    destruct (Qlt_bool v bv) eqn:E.
    + apply Qlt_bool_iff in E. apply IH.
      * rewrite <- Hlen. lia.
      * rewrite app_nth2, Nat.sub_diag by lia. reflexivity.
      * intros j Hj. rewrite <- Hlen in Hj.
        destruct (Nat.eq_dec j (length pre)) as [->|Hne].
        -- rewrite app_nth2, Nat.sub_diag by lia. apply Qle_refl.
        -- rewrite app_nth1 by lia. specialize (Hle j ltac:(lia)). lra.
      * intros j Hj. rewrite app_nth1 by lia.
        specialize (Hle j Hj). lra.
    + apply Qlt_bool_false_iff in E. apply IH.
      * rewrite <- Hlen. lia.
      * rewrite app_nth1 by lia. exact Hbv.
      * intros j Hj. rewrite <- Hlen in Hj.
        destruct (Nat.eq_dec j (length pre)) as [->|Hne].
        -- rewrite app_nth2, Nat.sub_diag by lia. exact E.
        -- rewrite app_nth1 by lia. apply Hle. lia.
      * intros j Hj. rewrite app_nth1 by lia. apply Hlt, Hj.
Qed.

Lemma np_argmin_spec (a : list Q) :
  a <> [] ->
  exists r, np_argmin a = Ok r
            /\ (r < length a)%nat
            /\ (forall j, (j < length a)%nat -> nth r a 0 <= nth j a 0)
            /\ (forall j, (j < r)%nat -> nth r a 0 < nth j a 0).
Proof.
  destruct a as [|v a]; [congruence|]. intros _.
  eexists. split; [reflexivity|].
  apply (@argmin_from_spec a [v] 0%nat v); simpl.
  - lia.
  - reflexivity.
  - intros j Hj. replace j with 0%nat by lia. apply Qle_refl.
  - intros j Hj. lia.
Qed.

Lemma distance_nth (df : DataFrame) (target : Q) (i : nat) :
  (i < length df)%nat ->
  nth i (map (fun f => Qabs (f - target)) (col_freq df)) 0
  = distance df target i.
Proof.
  intro H. unfold distance, frequency, col_freq.
  rewrite map_map.
  rewrite (nth_indep _ 0 ((fun s : Q * Q => Qabs (fst s - target)) (0, 0))).
  - rewrite (map_nth (fun s : Q * Q => Qabs (fst s - target))). reflexivity.
  - rewrite length_map. exact H.
Qed.

(** C3.  When some sample of the curve has its frequency in
    [[target - window, target + window]], [value_at] returns the largest
    value among those samples.  When none has and the curve is not empty,
    it returns the value of the sample whose frequency is closest to the
    target in absolute difference, the first such sample in curve order.
    A window whose samples have the values 1, 5, 2 yields 5. *)
Theorem value_at_max_in_window_or_nearest
  (df : DataFrame) (target window : Q) :
  ((exists s, In s df /\ in_window target window s) ->
   exists v,
     ModeVisualizerRun.value_at (col_freq df) (col_imag df) target window
     = Ok v
     /\ (exists s, In s df /\ in_window target window s /\ snd s = v)
     /\ (forall s, In s df -> in_window target window s -> snd s <= v))
  /\ ((forall s, In s df -> ~ in_window target window s) -> df <> [] ->
      exists i,
        (i < length df)%nat
        /\ ModeVisualizerRun.value_at (col_freq df) (col_imag df)
                                      target window
           = Ok (value df i)
        /\ (forall j, (j < length df)%nat ->
                      distance df target i <= distance df target j)
        /\ (forall j, (j < i)%nat ->
                      distance df target i < distance df target j))
  /\ (map snd (filter (in_window_b target window) df) = [1; 5; 2] ->
      ModeVisualizerRun.value_at (col_freq df) (col_imag df) target window
      = Ok 5).
Proof.
  rewrite value_at_rows. split; [|split].
  - intros (s & Hs & Hw).
    assert (Hin : In s (filter (in_window_b target window) df)).
    { apply filter_In. split; [exact Hs|]. apply in_window_b_iff, Hw. }
    destruct (filter (in_window_b target window) df) as [|s0 sel] eqn:E;
      [contradiction|].
    destruct (@np_max_spec (map snd (s0 :: sel))) as (m & Hm & Hmin & Hmax).
    { simpl. discriminate. }
    exists m. split; [exact Hm|]. split.
    + apply in_map_iff in Hmin. destruct Hmin as (r & Hr & Hrin).
      rewrite <- E in Hrin. apply filter_In in Hrin.
      exists r. split; [apply Hrin|]. split; [|exact Hr].
      apply in_window_b_iff, Hrin.
    + intros r Hr Hrw. apply Hmax. apply in_map. rewrite <- E.
      apply filter_In. split; [exact Hr|]. apply in_window_b_iff, Hrw.
  - intros Hnone Hne.
    destruct (filter (in_window_b target window) df) as [|s0 sel] eqn:E.
    + destruct (@np_argmin_spec
                  (map (fun f => Qabs (f - target)) (col_freq df)))
        as (r & Hr & Hlen & Hmin & Hfirst).
      { destruct df; [congruence | simpl; discriminate]. }
      unfold col_freq in Hlen, Hmin. rewrite !length_map in Hlen, Hmin.
      exists r. split; [exact Hlen|]. split.
      * rewrite Hr. simpl. apply col_imag_item, Hlen.
      * split.
        -- intros j Hj. rewrite <- !distance_nth by lia.
           apply Hmin, Hj.
        -- intros j Hj. rewrite <- !distance_nth by lia.
           apply Hfirst, Hj.
    + exfalso. apply (Hnone s0).
      * assert (H : In s0 (filter (in_window_b target window) df)).
        { rewrite E. left. reflexivity. }
        apply filter_In in H. apply H.
      * assert (H : In s0 (filter (in_window_b target window) df)).
        { rewrite E. left. reflexivity. }
        apply filter_In in H. apply in_window_b_iff, H.
  - intro H.
    destruct (filter (in_window_b target window) df) as [|s0 sel];
      [discriminate|].
    rewrite H. reflexivity.
Qed.

Lemma value_at_max_in_window_or_nearest_witness :
  (exists s, In s [(1, 9); (2, 1); (3, 5); (4, 2); (5, 9)]
             /\ in_window 3 1 s)
  /\ ModeVisualizerRun.value_at [1; 2; 3; 4; 5] [9; 1; 5; 2; 9] 3 1 = Ok 5.
Proof.
  split.
  - exists (3, 5). split; [simpl; auto|]. unfold in_window. simpl. lra.
  - apply (value_at_max_in_window_or_nearest
             [(1, 9); (2, 1); (3, 5); (4, 2); (5, 9)] 3 1).
    reflexivity.
Defined.

(** With an empty window the value at the closest frequency is returned;
    of two equally close samples the first one counts. *)
Example value_at_nearest_example :
  ModeVisualizerRun.value_at [1; 2; 6; 7] [9; 1; 5; 2] 4 1 = Ok 1
  /\ ModeVisualizerRun.value_at [1; 2; 6; 7] [9; 1; 5; 2] 10 1 = Ok 2.
Proof. split; reflexivity. Qed.

(** On a curve without samples there is no closest sample: [np.argmin]
    raises. *)
Example value_at_empty_curve (target window : Q) :
  ModeVisualizerRun.value_at [] [] target window = Raise ValueError.
Proof. reflexivity. Qed.

(** ** [corner_vector] *)

Lemma dict_get_present (dfs : ModeVisualizerRun.Dfs) (k : string)
  (df : DataFrame) :
  dfs k = Some df -> ModeVisualizerRun.dict_get dfs k = Ok df.
Proof. intro H. unfold ModeVisualizerRun.dict_get. rewrite H. reflexivity. Qed.

(** C8.  When the four curves of point [p] are loaded, [corner_vector]
    computes [value_at] on each of them at the target frequency and
    returns 0.5 times the sum, over the two excitation directions X and Y,
    of the vector (value of the x-measurement curve, value of the
    y-measurement curve): per axis, the average of the two estimates. *)
Theorem corner_vector_is_half_the_sum
  (dfs : ModeVisualizerRun.Dfs) (spin_win : Q) (p : Z) (f0 : Q)
  (Xx Xy Yx Yy : DataFrame) :
  dfs (ModeVisualizerRun.channel_key p "X" "x") = Some Xx ->
  dfs (ModeVisualizerRun.channel_key p "X" "y") = Some Xy ->
  dfs (ModeVisualizerRun.channel_key p "Y" "x") = Some Yx ->
  dfs (ModeVisualizerRun.channel_key p "Y" "y") = Some Yy ->
  ModeVisualizerRun.corner_vector dfs spin_win p f0
  = (xx <- ModeVisualizerRun.value_at (col_freq Xx) (col_imag Xx)
                                      f0 spin_win ;;
     xy <- ModeVisualizerRun.value_at (col_freq Xy) (col_imag Xy)
                                      f0 spin_win ;;
     yx <- ModeVisualizerRun.value_at (col_freq Yx) (col_imag Yx)
                                      f0 spin_win ;;
     yy <- ModeVisualizerRun.value_at (col_freq Yy) (col_imag Yy)
                                      f0 spin_win ;;
     Ok (ModeVisualizerRun.vscale (1 # 2)
           (ModeVisualizerRun.vadd
              (ModeVisualizerRun.vadd (0, 0) (xx, xy)) (yx, yy))))
  /\ forall xx xy yx yy : Q,
      ModeVisualizerRun.value_at (col_freq Xx) (col_imag Xx) f0 spin_win
      = Ok xx ->
      ModeVisualizerRun.value_at (col_freq Xy) (col_imag Xy) f0 spin_win
      = Ok xy ->
      ModeVisualizerRun.value_at (col_freq Yx) (col_imag Yx) f0 spin_win
      = Ok yx ->
      ModeVisualizerRun.value_at (col_freq Yy) (col_imag Yy) f0 spin_win
      = Ok yy ->
      exists v,
        ModeVisualizerRun.corner_vector dfs spin_win p f0 = Ok v
        /\ fst v == (1 # 2) * (xx + yx)
        /\ snd v == (1 # 2) * (xy + yy).
Proof.
  intros HXx HXy HYx HYy.
  assert (E : ModeVisualizerRun.corner_vector dfs spin_win p f0
              = (xx <- ModeVisualizerRun.value_at (col_freq Xx) (col_imag Xx)
                                                  f0 spin_win ;;
                 xy <- ModeVisualizerRun.value_at (col_freq Xy) (col_imag Xy)
                                                  f0 spin_win ;;
                 yx <- ModeVisualizerRun.value_at (col_freq Yx) (col_imag Yx)
                                                  f0 spin_win ;;
                 yy <- ModeVisualizerRun.value_at (col_freq Yy) (col_imag Yy)
                                                  f0 spin_win ;;
                 Ok (ModeVisualizerRun.vscale (1 # 2)
                       (ModeVisualizerRun.vadd
                          (ModeVisualizerRun.vadd (0, 0) (xx, xy))
                          (yx, yy))))).
  { unfold ModeVisualizerRun.corner_vector. simpl for_each.
    rewrite (dict_get_present dfs _ HXx), (dict_get_present dfs _ HXy),
      (dict_get_present dfs _ HYx), (dict_get_present dfs _ HYy).
    simpl.
    destruct (ModeVisualizerRun.value_at (col_freq Xx) (col_imag Xx)
                                         f0 spin_win); simpl;
      [|reflexivity].
    destruct (ModeVisualizerRun.value_at (col_freq Xy) (col_imag Xy)
                                         f0 spin_win); simpl;
      [|reflexivity].
    destruct (ModeVisualizerRun.value_at (col_freq Yx) (col_imag Yx)
                                         f0 spin_win); simpl;
      [|reflexivity].
    destruct (ModeVisualizerRun.value_at (col_freq Yy) (col_imag Yy)
                                         f0 spin_win); simpl;
      reflexivity. }
  split; [exact E|].
  intros xx xy yx yy H1 H2 H3 H4.
  rewrite E, H1, H2, H3, H4. simpl.
  eexists. split; [reflexivity|]. simpl. split; ring.
Qed.

Lemma corner_vector_is_half_the_sum_witness :
  ModeVisualizerRun.corner_vector corner1_dfs 0 1 10 = Ok (6 # 2, 6 # 2)
  /\ exists v,
      ModeVisualizerRun.corner_vector corner1_dfs 0 1 10 = Ok v
      /\ fst v == (1 # 2) * (4 + 2)
      /\ snd v == (1 # 2) * (-2 + 8).
Proof.
  split; [reflexivity|].
  apply (@corner_vector_is_half_the_sum corner1_dfs 0 1 10
           [(9, 1); (10, 4); (11, 2)] [(9, 0); (10, -2); (11, -6)]
           [(9, 3); (10, 2); (11, 1)] [(9, 5); (10, 8); (11, 7)]
           eq_refl eq_refl eq_refl eq_refl);
    reflexivity.
Defined.

(** A point with a curve that was not loaded raises [KeyError]. *)
Example corner_vector_missing_channel :
  ModeVisualizerRun.corner_vector corner1_dfs 0 2 10 = Raise KeyError.
Proof. reflexivity. Qed.

(** ** The clustering pass *)

Lemma getitem_last_app (A : Type) (closed : list (list A)) (cur : list A) :
  getitem_last (closed ++ [cur]) = Ok cur.
Proof.
  unfold getitem_last.
  destruct (closed ++ [cur]) eqn:E.
  - destruct closed; discriminate.
  - rewrite <- E, last_last. reflexivity.
Qed.

Lemma np_mean_nonempty (c : list Q) :
  c <> [] -> np_mean c = Ok (Spec.mean c).
Proof. destruct c; [congruence | reflexivity]. Qed.

Lemma app_one_nonempty (A : Type) (l : list A) (a : A) : l ++ [a] <> [].
Proof. destruct l; discriminate. Qed.

(** The loop of [cluster_modes], started with the closed clusters and the
    current one, ends with the closed clusters followed by the walk of the
    specification. *)
Lemma cluster_loop (tol : Q) (rest : list Q) :
  forall (closed : list (list Q)) (cur : list Q),
    cur <> [] ->
    for_each rest
      (fun f clusters =>
         cur <- getitem_last clusters ;;
         m <- np_mean cur ;;
         if Qle_bool (Qabs (f - m)) tol
         then Ok (removelast clusters ++ [cur ++ [f]])
         else Ok (clusters ++ [[f]]))
      (closed ++ [cur])
    = Ok (closed ++ Spec.walk tol cur rest).
Proof.
  induction rest as [|f rest IH]; intros closed cur Hcur;
    cbn [for_each Spec.walk].
  - reflexivity.
  - rewrite getitem_last_app. cbn [bind].
    rewrite (np_mean_nonempty Hcur). cbn [bind].
    destruct (Qle_bool (Qabs (f - Spec.mean cur)) tol); cbn [bind].
    + rewrite removelast_last. apply IH, app_one_nonempty.
    + rewrite IH by discriminate.
      rewrite <- app_assoc. reflexivity.
Qed.

Lemma cluster_pass_eq (tol : Q) (flat : list Q) :
  flat <> [] ->
  ModeVisualizerRun.cluster_pass tol flat = Ok (Spec.clusters tol flat).
Proof.
  destruct flat as [|f0 rest]; [congruence|]. intros _.
  unfold ModeVisualizerRun.cluster_pass.
  cbn [getitem nth_error bind skipn Spec.clusters].
  apply (@cluster_loop tol rest [] [f0]). discriminate.
Qed.

Lemma walk_nonempty (tol : Q) (rest : list Q) :
  forall cur, cur <> [] ->
              Forall (fun c => c <> []) (Spec.walk tol cur rest).
Proof.
  induction rest as [|f rest IH]; intros cur Hcur; cbn [Spec.walk].
  - constructor; [exact Hcur | constructor].
  - destruct (Qle_bool (Qabs (f - Spec.mean cur)) tol).
    + apply IH, app_one_nonempty.
    + constructor; [exact Hcur|]. apply IH. discriminate.
Qed.

Lemma clusters_nonempty (tol : Q) (flat : list Q) :
  Forall (fun c => c <> []) (Spec.clusters tol flat).
Proof.
  destruct flat as [|f0 rest]; simpl.
  - constructor.
  - apply walk_nonempty. discriminate.
Qed.

Lemma comprehension_mean (cs : list (list Q)) :
  Forall (fun c => c <> []) cs ->
  comprehension np_mean cs = Ok (map Spec.mean cs).
Proof.
  induction 1 as [|c cs Hc _ IH]; simpl.
  - reflexivity.
  - rewrite (np_mean_nonempty Hc), IH. reflexivity.
Qed.

Lemma Forall_filter (A : Type) (P : A -> Prop) (p : A -> bool) (l : list A) :
  Forall P l -> Forall P (filter p l).
Proof.
  rewrite !Forall_forall. intros H a Ha.
  apply filter_In in Ha. apply H, Ha.
Qed.

Lemma nonempty_arrays_concat (apf : list (option (list Q))) :
  concat (ModeVisualizerRun.nonempty_arrays apf) = Spec.all_frequencies apf.
Proof.
  induction apf as [|arr apf IH]; simpl.
  - reflexivity.
  - rewrite concat_app, IH. f_equal.
    destruct arr as [[|v a]|]; simpl; try reflexivity.
    rewrite app_nil_r. reflexivity.
Qed.

Lemma sorted_by_nil (A : Type) (key : A -> Q) (l : list A) :
  sorted_by key l = [] -> l = [].
Proof.
  intro H. apply Permutation_nil.
  rewrite <- H. apply Permutation_sym, sorted_by_perm.
Qed.

(** [cluster_modes] computes what the specification describes and raises
    nothing. *)
Lemma cluster_modes_eq (apf : list (option (list Q))) (tol : Q) (mc : Z) :
  ModeVisualizerRun.cluster_modes apf tol mc = Ok (Spec.cluster apf tol mc).
Proof.
  unfold ModeVisualizerRun.cluster_modes, Spec.cluster.
  rewrite <- nonempty_arrays_concat.
  destruct (ModeVisualizerRun.nonempty_arrays apf) as [|a arrays] eqn:E.
  - reflexivity.
  - unfold np_concatenate. cbn [bind].
    generalize (concat (a :: arrays)). intros [|v flat].
    + reflexivity.
    + cbn [length Nat.eqb].
      rewrite cluster_pass_eq.
      * cbn [bind].
        apply comprehension_mean, Forall_filter, clusters_nonempty.
      * intro H. apply sorted_by_nil in H. discriminate.
Qed.

(** ** Means *)










(** ** Order of the clusters *)






(** ** [cluster_modes] *)












(** On values whose sums and means need no rounding the two embeddings
    of [cluster_modes] agree. *)
Example binary64_example :
  Binary64.cluster_modes
    [Some [10; 10.5]; None; Some []; Some [20; 10.25]]%float 0.5%float 2
  = Ok [10.25%float]
  /\ ModeVisualizerRun.cluster_modes
       [Some [10; 105 # 10]; None; Some []; Some [20; 1025 # 100]] (1 # 2) 2
     = Ok [Spec.mean [10; 1025 # 100; 105 # 10]]
  /\ Spec.mean [10; 1025 # 100; 105 # 10] == 1025 # 100.
Proof. repeat split; vm_compute; reflexivity. Qed.

(** With a negative tolerance every value is a cluster of its own, and a
    value that occurs twice is reported twice. *)
Example negative_tolerance_repeats_modes :
  ModeVisualizerRun.cluster_modes [Some [5; 5]] (-1 # 1) 1
  = Ok [Spec.mean [5]; Spec.mean [5]].
Proof. reflexivity. Qed.

(** The end-to-end example of the specification: two channels with the
    peaks 10.0, 10.3 and 10.1, tolerance 0.5. *)
Example two_channel_example :
  (exists m, ModeVisualizerRun.cluster_modes
               [Some [10; 103 # 10]; Some [101 # 10]] (1 # 2) 2 = Ok [m]
             /\ m == 304 # 30)
  /\ ModeVisualizerRun.cluster_modes
       [Some [10; 103 # 10]; Some [101 # 10]] (1 # 2) 4 = Ok [].
Proof.
  split; [|reflexivity].
  eexists. split; [reflexivity|]. reflexivity.
Qed.

(** ** The normalisation of the displacement field *)

Section NormalizeFacts.
Local Open Scope R_scope.

Lemma norm_nonneg (v : R * R) : 0 <= DrawMode.norm v.
Proof. apply sqrt_pos. Qed.

Lemma fold_max_real (a : list R) (v : R) :
  let m := fold_left (fun m w => if Rlt_dec m w then w else m) a v in
  In m (v :: a) /\ forall w, In w (v :: a) -> w <= m.
Proof.
  revert v. induction a as [|u a IH]; intro v; simpl.
  - split; [left; reflexivity|]. intros w [<-|[]]. lra.
  - destruct (Rlt_dec v u) as [L|L].
    + destruct (IH u) as [Hin Hmax]. split.
      * right. exact Hin.
      * intros w [<-|Hw]; [|apply Hmax, Hw].
        assert (u <= fold_left (fun m w => if Rlt_dec m w then w else m) a u)
          by (apply Hmax; left; reflexivity).
        lra.
    + destruct (IH v) as [Hin Hmax]. split.
      * destruct Hin as [Hin|Hin]; [left; exact Hin | right; right; exact Hin].
      * intros w [<-|[<-|Hw]].
        -- apply Hmax. left. reflexivity.
        -- assert (v <= fold_left
                           (fun m w => if Rlt_dec m w then w else m) a v)
             by (apply Hmax; left; reflexivity).
           lra.
        -- apply Hmax. right. exact Hw.
Qed.

Lemma np_max_real (a : list R) :
  a <> [] ->
  exists m, DrawMode.np_max a = Ok m /\ In m a /\ forall w, In w a -> w <= m.
Proof.
  destruct a as [|v a]; [congruence|]. intros _.
  eexists. split; [reflexivity|]. apply fold_max_real.
Qed.

(** Dividing a vector by a positive number divides its norm. *)
Lemma norm_vdiv (d : R) (v : R * R) :
  0 < d -> DrawMode.norm (DrawMode.vdiv d v) = DrawMode.norm v / d.
Proof.
  intro Hd. unfold DrawMode.norm, DrawMode.vdiv. cbn [fst snd].
  replace (fst v / d * (fst v / d) + snd v / d * (snd v / d))
    with ((fst v * fst v + snd v * snd v) / (d * d))
    by (field; lra).
  rewrite sqrt_div_alt by nra.
  rewrite sqrt_square by lra. reflexivity.
Qed.

Lemma vdiv_one (u : list (R * R)) : map (DrawMode.vdiv 1) u = u.
Proof.
  induction u as [|[x y] u IH]; simpl.
  - reflexivity.
  - rewrite IH. unfold DrawMode.vdiv. cbn [fst snd].
    rewrite !Rdiv_1_r. reflexivity.
Qed.

(** C9.  The normalisation in [draw_mode] divides every vector of the
    field by the largest Euclidean norm [top] of the field, except that it
    divides by 1 when [top < 1e-12].  The divisor is therefore never zero.
    When [top >= 1e-12] the normalised norms are the norms divided by
    [top] and at most 1; when [top < 1e-12] the field is returned as it
    is, with all norms still below [1e-12].  Vectors with the norms
    0.5, 2, 1 get the norms 0.25, 1, 0.5. *)
Theorem normalize_divides_by_largest_norm (u : list (R * R)) :
  u <> [] ->
  exists top denom : R,
    In top (map DrawMode.norm u)
    /\ (forall v, In v u -> DrawMode.norm v <= top)
    /\ denom = (if Rlt_dec top 1e-12 then 1 else top)
    /\ 0 < denom
    /\ DrawMode.normalize u = Ok (map (DrawMode.vdiv denom) u)
    /\ (forall v, In v u ->
                  DrawMode.norm (DrawMode.vdiv denom v)
                  = DrawMode.norm v / denom)
    /\ (1e-12 <= top ->
        denom = top
        /\ forall v, In v u -> DrawMode.norm (DrawMode.vdiv denom v) <= 1)
    /\ (top < 1e-12 ->
        denom = 1
        /\ DrawMode.normalize u = Ok u
        /\ forall v, In v u -> DrawMode.norm (DrawMode.vdiv denom v) < 1e-12)
    /\ (map DrawMode.norm u = [1 / 2; 2; 1] ->
        map DrawMode.norm (map (DrawMode.vdiv denom) u) = [1 / 4; 1; 1 / 2]).
Proof.
  intro Hu.
  destruct (@np_max_real (map DrawMode.norm u)) as (top & Htop & Hin & Hmax).
  { destruct u; [congruence | discriminate]. }
  assert (Hnorm : forall v, In v u -> DrawMode.norm v <= top).
  { intros v Hv. apply Hmax, in_map, Hv. }
  assert (Hpos : 0 <= top).
  { apply in_map_iff in Hin. destruct Hin as (v & <- & _). apply norm_nonneg. }
  set (denom := if Rlt_dec top 1e-12 then 1 else top).
  assert (Hd : 0 < denom).
  { unfold denom. destruct (Rlt_dec top 1e-12); lra. }
  assert (Hnz : DrawMode.normalize u = Ok (map (DrawMode.vdiv denom) u)).
  { unfold DrawMode.normalize. rewrite Htop. reflexivity. }
  exists top, denom.
  split; [exact Hin|]. split; [exact Hnorm|]. split; [reflexivity|].
  split; [exact Hd|]. split; [exact Hnz|].
  split; [intros v _; apply norm_vdiv, Hd|].
  split; [|split].
  - intro Hbig.
    assert (E : denom = top).
    { unfold denom. destruct (Rlt_dec top 1e-12); [lra | reflexivity]. }
    split; [exact E|]. intros v Hv.
    rewrite norm_vdiv by exact Hd. rewrite E.
    specialize (Hnorm v Hv).
    assert (Hq : DrawMode.norm v / top * top = DrawMode.norm v)
      by (field; lra).
    apply Rmult_le_reg_r with top; [lra|]. rewrite Hq. lra.
  - intro Hsmall.
    assert (E : denom = 1).
    { unfold denom. destruct (Rlt_dec top 1e-12); [reflexivity | lra]. }
    split; [exact E|]. split.
    + rewrite Hnz, E, vdiv_one. reflexivity.
    + intros v Hv. rewrite norm_vdiv by exact Hd. rewrite E.
      specialize (Hnorm v Hv). lra.
  - intro Hex.
    assert (E : denom = 2).
    { assert (Et : top = 2).
      { rewrite Hex in Hin, Hmax.
        assert (H2 : 2 <= top) by (apply Hmax; simpl; auto).
        destruct Hin as [<-|[<-|[<-|[]]]]; lra. }
      unfold denom. destruct (Rlt_dec top 1e-12); lra. }
    rewrite map_map.
    rewrite (map_ext_in _ (fun v => DrawMode.norm v / denom))
      by (intros v _; apply norm_vdiv, Hd).
    rewrite <- (map_map DrawMode.norm (fun r => r / denom)).
    rewrite Hex, E. cbn [map].
    replace (1 / 2 / 2) with (1 / 4) by lra.
    replace (2 / 2) with 1 by lra. reflexivity.
Qed.

Lemma normalize_divides_by_largest_norm_witness :
  [(1 / 2, 0); (0, -2); (1, 0)] <> []
  /\ map DrawMode.norm [(1 / 2, 0); (0, -2); (1, 0)] = [1 / 2; 2; 1]
  /\ exists top denom : R,
      DrawMode.normalize [(1 / 2, 0); (0, -2); (1, 0)]
      = Ok (map (DrawMode.vdiv denom) [(1 / 2, 0); (0, -2); (1, 0)])
      /\ map DrawMode.norm
             (map (DrawMode.vdiv denom) [(1 / 2, 0); (0, -2); (1, 0)])
         = [1 / 4; 1; 1 / 2].
Proof.
  assert (Hne : [(1 / 2, 0); (0, -2); (1, 0)] <> []) by discriminate.
  assert (Hn : map DrawMode.norm [(1 / 2, 0); (0, -2); (1, 0)]
               = [1 / 2; 2; 1]).
  { unfold DrawMode.norm. cbn [map fst snd].
    replace (1 / 2 * (1 / 2) + 0 * 0) with ((1 / 2) * (1 / 2)) by lra.
    replace (0 * 0 + -2 * -2) with (2 * 2) by lra.
    replace (1 * 1 + 0 * 0) with (1 * 1) by lra.
    rewrite !sqrt_square by lra. reflexivity. }
  split; [exact Hne|]. split; [exact Hn|].
  destruct (normalize_divides_by_largest_norm Hne)
    as (top & denom & _ & _ & _ & _ & Hz & _ & _ & _ & Hex).
  exists top, denom. split; [exact Hz | exact (Hex Hn)].
Defined.

(** A field of zero vectors is returned unchanged. *)
Example normalize_zero_field :
  DrawMode.normalize [(0, 0); (0, 0); (0, 0); (0, 0)]
  = Ok [(0, 0); (0, 0); (0, 0); (0, 0)].
Proof.
  assert (E : DrawMode.norm (0, 0) = 0).
  { unfold DrawMode.norm. cbn [fst snd].
    replace (0 * 0 + 0 * 0) with 0 by lra. apply sqrt_0. }
  assert (M : DrawMode.np_max [0; 0; 0; 0] = Ok 0).
  { destruct (@np_max_real [0; 0; 0; 0]) as (m & M & Hin & _);
      [discriminate|].
    rewrite M. f_equal.
    destruct Hin as [<-|[<-|[<-|[<-|[]]]]]; reflexivity. }
  unfold DrawMode.normalize. cbn [map]. rewrite E, M. cbn [bind].
  destruct (Rlt_dec 0 1e-12) as [_|L]; [|lra].
  f_equal. exact (vdiv_one [(0, 0); (0, 0); (0, 0); (0, 0)]).
Qed.

End NormalizeFacts.


(** * Further properties of the code *)

(** ** The peak lists *)

Lemma peaks_from_df_eq (df : DataFrame) (level : Q) :
  ModeVisualizerRun.peaks_from_df (Some df) level
  = Ok (sorted_by fst
          (map (sample df)
               (filter (positive_peak_b df level) (range 1 (length df - 1)))
           ++ map (sample df)
                (filter (negative_peak_b df level)
                        (range 1 (length df - 1))))).
Proof.
  unfold ModeVisualizerRun.peaks_from_df.
  rewrite find_positive_peaks_eq, find_negative_peaks_eq. reflexivity.
Qed.

Lemma sample_in (df : DataFrame) (i : nat) :
  (i < length df)%nat -> In (sample df i) df.
Proof. intro H. unfold sample. apply nth_In, H. Qed.

Lemma exclusive_filters (A : Type) (p q : A -> bool) (l : list A) :
  (forall a, In a l -> p a = true -> q a = false) ->
  (length (filter p l) + length (filter q l) <= length l)%nat.
Proof.
  induction l as [|a l IH]; intro H; simpl.
  - lia.
  - assert (IH' : (length (filter p l) + length (filter q l)
                   <= length l)%nat).
    { apply IH. intros b Hb. apply H. right. exact Hb. }
    destruct (p a) eqn:Ep.
    + rewrite (H a (or_introl eq_refl) Ep). simpl. lia.
    + destruct (q a); simpl; lia.
Qed.

Lemma peak_b_exclusive (df : DataFrame) (level : Q) (i : nat) :
  positive_peak_b df level i = true -> negative_peak_b df level i = false.
Proof.
  unfold positive_peak_b, negative_peak_b.
  rewrite !andb_true_iff, Qlt_bool_iff. intros [H _].
  apply andb_false_iff. left. apply Qlt_bool_false_iff. lra.
Qed.

(** X1.  Every peak in the list of [peaks_from_df] is a sample of the
    curve that is neither its first nor its last row, and its value is at
    or above [level] or at or below [- level]. *)
Theorem combined_peaks_are_interior_samples
  (df : DataFrame) (level : Q) (peaks : list Peak) :
  ModeVisualizerRun.peaks_from_df (Some df) level = Ok peaks ->
  forall p, In p peaks ->
            exists i, (1 <= i <= length df - 2)%nat
                      /\ p = sample df i
                      /\ In p df
                      /\ (level <= snd p \/ snd p <= - level).
Proof.
  rewrite peaks_from_df_eq. intros E p Hp. injection E as <-.
  apply (Permutation_in _ (Permutation_sym (sorted_by_perm fst _))) in Hp.
  apply in_app_or in Hp. destruct Hp as [Hp|Hp];
    apply in_map_iff in Hp; destruct Hp as (i & <- & Hi).
  - apply positive_peak_b_iff in Hi. destruct Hi as (Hr & _ & _ & Hl).
    exists i. split; [exact Hr|]. split; [reflexivity|].
    split; [apply sample_in; lia|]. left. exact Hl.
  - apply negative_peak_b_iff in Hi. destruct Hi as (Hr & _ & _ & Hl).
    exists i. split; [exact Hr|]. split; [reflexivity|].
    split; [apply sample_in; lia|]. right. exact Hl.
Qed.

Lemma combined_peaks_are_interior_samples_witness :
  ModeVisualizerRun.peaks_from_df
    (Some [(1, 0); (2, 5); (3, -5); (4, 0)]) 1 = Ok [(2, 5); (3, -5)]
  /\ exists i, (1 <= i <= 2)%nat
               /\ (3, -5) = sample [(1, 0); (2, 5); (3, -5); (4, 0)] i
               /\ In (3, -5) [(1, 0); (2, 5); (3, -5); (4, 0)]
               /\ (1 <= snd (3, -5) \/ snd (3, -5) <= - (1)).
Proof.
  split; [reflexivity|].
  apply (@combined_peaks_are_interior_samples
           [(1, 0); (2, 5); (3, -5); (4, 0)] 1 [(2, 5); (3, -5)] eq_refl).
  simpl. auto.
Defined.

(** X2.  A curve of [n] samples has at most [n - 2] peaks, positive and
    negative together: each interior sample is reported at most once. *)
Theorem combined_peaks_count (df : DataFrame) (level : Q)
  (peaks : list Peak) :
  ModeVisualizerRun.peaks_from_df (Some df) level = Ok peaks ->
  (length peaks <= length df - 2)%nat.
Proof.
  rewrite peaks_from_df_eq. intro E. injection E as <-.
  rewrite <- (Permutation_length (sorted_by_perm fst _)).
  rewrite length_app, !length_map.
  assert (H := @exclusive_filters nat (positive_peak_b df level)
                 (negative_peak_b df level) (range 1 (length df - 1))
                 (fun i _ => @peak_b_exclusive df level i)).
  unfold range in *. rewrite length_seq in H. lia.
Qed.

Lemma combined_peaks_count_witness :
  ModeVisualizerRun.peaks_from_df
    (Some [(1, 0); (2, 5); (3, -5); (4, 0)]) 1 = Ok [(2, 5); (3, -5)]
  /\ (length [(2, 5); (3, -5)]%Q <= 2)%nat.
Proof.
  split; [reflexivity|].
  apply (@combined_peaks_count
           [(1, 0); (2, 5); (3, -5); (4, 0)] 1 [(2, 5); (3, -5)] eq_refl).
Defined.

Lemma filter_incl (A : Type) (p q : A -> bool) (l : list A) :
  (forall a, p a = true -> q a = true) ->
  incl (filter p l) (filter q l).
Proof.
  intros H a Ha. apply filter_In in Ha. apply filter_In.
  split; [apply Ha | apply H, Ha].
Qed.

(** X3.  Raising the level only removes peaks: every peak that
    [peaks_from_df] reports at a level is also reported at every lower
    level. *)
Theorem higher_level_fewer_peaks (df : DataFrame) (low high : Q)
  (at_low at_high : list Peak) :
  low <= high ->
  ModeVisualizerRun.peaks_from_df (Some df) low = Ok at_low ->
  ModeVisualizerRun.peaks_from_df (Some df) high = Ok at_high ->
  incl at_high at_low.
Proof.
  intros Hl. rewrite !peaks_from_df_eq. intros E1 E2.
  injection E1 as <-. injection E2 as <-.
  intros p Hp.
  apply (Permutation_in _ (Permutation_sym (sorted_by_perm fst _))) in Hp.
  apply (Permutation_in _ (sorted_by_perm fst _)).
  apply in_app_or in Hp. apply in_or_app.
  destruct Hp as [Hp|Hp]; [left|right];
    apply in_map_iff in Hp; destruct Hp as (i & <- & Hi);
    apply in_map; revert Hi; apply filter_incl; clear i; intro i.
  - unfold positive_peak_b. rewrite !andb_true_iff, !Qle_bool_iff.
    intros (H1 & H2 & H3). repeat split; try assumption. lra.
  - unfold negative_peak_b. rewrite !andb_true_iff, !Qle_bool_iff.
    intros (H1 & H2 & H3). repeat split; try assumption. lra.
Qed.

Lemma higher_level_fewer_peaks_witness :
  1 <= 6
  /\ incl [(3, -7)] [(2, 5); (3, -7)].
Proof.
  split; [discriminate|].
  apply (@higher_level_fewer_peaks
           [(1, 0); (2, 5); (3, -7); (4, 0)] 1 6
           [(2, 5); (3, -7)] [(3, -7)]);
    [discriminate | reflexivity | reflexivity].
Defined.

(** ** The clusters *)

Lemma walk_concat (tol : Q) (rest : list Q) :
  forall cur, concat (Spec.walk tol cur rest) = cur ++ rest.
Proof.
  induction rest as [|f rest IH]; intro cur; cbn [Spec.walk].
  - simpl. rewrite !app_nil_r. reflexivity.
  - destruct (Qle_bool (Qabs (f - Spec.mean cur)) tol).
    + rewrite IH, <- app_assoc. reflexivity.
    + cbn [concat]. rewrite IH. reflexivity.
Qed.

Lemma clusters_concat (tol : Q) (flat : list Q) :
  concat (Spec.clusters tol flat) = flat.
Proof.
  destruct flat as [|f rest]; [reflexivity|].
  apply (walk_concat tol rest [f]).
Qed.

(** X4.  The clustering loop loses and invents nothing: the clusters it
    builds are non-empty and, written one after the other, are exactly the
    values it was given, in the same order. *)
Theorem clusters_partition_the_values (tol : Q) (flat : list Q) :
  flat <> [] ->
  exists clusters,
    ModeVisualizerRun.cluster_pass tol flat = Ok clusters
    /\ concat clusters = flat
    /\ Forall (fun c => c <> []) clusters.
Proof.
  intro H. exists (Spec.clusters tol flat).
  split; [apply cluster_pass_eq, H|].
  split; [apply clusters_concat | apply clusters_nonempty].
Qed.

Lemma clusters_partition_the_values_witness :
  [1; 2; 5; 9; 10] <> []
  /\ exists clusters,
      ModeVisualizerRun.cluster_pass 1 [1; 2; 5; 9; 10] = Ok clusters
      /\ concat clusters = [1; 2; 5; 9; 10]
      /\ Forall (fun c => c <> []) clusters.
Proof.
  assert (H : [1; 2; 5; 9; 10] <> []) by discriminate.
  split; [exact H|].
  apply (@clusters_partition_the_values 1 [1; 2; 5; 9; 10] H).
Defined.

(** X6.  Only the values count, not the channels they come from:
    inputs with the same concatenation of their arrays ([None] and empty
    arrays left out) give the same result. *)
Theorem modes_ignore_the_channel_split
  (apf apf' : list (option (list Q))) (tol : Q) (min_count : Z) :
  concat (ModeVisualizerRun.nonempty_arrays apf)
  = concat (ModeVisualizerRun.nonempty_arrays apf') ->
  ModeVisualizerRun.cluster_modes apf tol min_count
  = ModeVisualizerRun.cluster_modes apf' tol min_count.
Proof.
  rewrite !nonempty_arrays_concat. intro H.
  rewrite !cluster_modes_eq. unfold Spec.cluster. rewrite H. reflexivity.
Qed.

Lemma modes_ignore_the_channel_split_witness :
  concat (ModeVisualizerRun.nonempty_arrays
            [Some [10; 103 # 10]; None; Some []; Some [101 # 10]])
  = concat (ModeVisualizerRun.nonempty_arrays
              [Some [10]; Some [103 # 10; 101 # 10]])
  /\ ModeVisualizerRun.cluster_modes
       [Some [10; 103 # 10]; None; Some []; Some [101 # 10]] (1 # 2) 2
     = ModeVisualizerRun.cluster_modes
         [Some [10]; Some [103 # 10; 101 # 10]] (1 # 2) 2.
Proof.
  split; [reflexivity|].
  apply (@modes_ignore_the_channel_split
           [Some [10; 103 # 10]; None; Some []; Some [101 # 10]]
           [Some [10]; Some [103 # 10; 101 # 10]] (1 # 2) 2).
  reflexivity.
Defined.

(** X7.  Raising [min_count] only removes modes, and with
    [min_count <= 1] no cluster is dropped: there are as many modes as
    clusters. *)
Theorem min_count_only_removes_modes
  (all_peak_freqs : list (option (list Q))) (tol : Q) (low high : Z)
  (at_low at_high : list Q) :
  (low <= high)%Z ->
  ModeVisualizerRun.cluster_modes all_peak_freqs tol low = Ok at_low ->
  ModeVisualizerRun.cluster_modes all_peak_freqs tol high = Ok at_high ->
  incl at_high at_low
  /\ ((low <= 1)%Z ->
      forall flat clusters,
        flat = sorted_by (fun v => v)
                 (concat (ModeVisualizerRun.nonempty_arrays all_peak_freqs)) ->
        ModeVisualizerRun.cluster_pass tol flat = Ok clusters ->
        length at_low = length clusters).
Proof.
  intros Hl E1 E2. rewrite cluster_modes_eq in E1, E2.
  injection E1 as <-. injection E2 as <-. split.
  - unfold Spec.cluster. intros m Hm.
    apply in_map_iff in Hm. destruct Hm as (c & <- & Hc).
    apply in_map. revert Hc. apply filter_incl.
    intro a. unfold Spec.survives. rewrite !Z.leb_le. lia.
  - intros H1 flat clusters -> Hc.
    assert (Hne : sorted_by (fun v => v)
                    (concat (ModeVisualizerRun.nonempty_arrays
                               all_peak_freqs)) <> []).
    { intro E. rewrite E in Hc. discriminate. }
    rewrite (cluster_pass_eq tol Hne) in Hc. injection Hc as <-.
    unfold Spec.cluster. rewrite length_map, nonempty_arrays_concat.
    f_equal. apply forallb_filter_id. apply forallb_forall.
    intros c Hc. unfold Spec.survives. apply Z.leb_le.
    assert (F := clusters_nonempty tol
                   (sorted_by (fun v => v)
                      (Spec.all_frequencies all_peak_freqs))).
    rewrite Forall_forall in F. specialize (F c Hc).
    destruct c; [congruence|]. simpl length. lia.
Qed.

Lemma min_count_only_removes_modes_witness :
  (1 <= 2)%Z
  /\ exists at_low at_high,
      ModeVisualizerRun.cluster_modes
        [Some [10; 103 # 10]; Some [101 # 10; 20]] (1 # 2) 1 = Ok at_low
      /\ ModeVisualizerRun.cluster_modes
           [Some [10; 103 # 10]; Some [101 # 10; 20]] (1 # 2) 2 = Ok at_high
      /\ incl at_high at_low
      /\ length at_low = 2%nat.
Proof.
  split; [lia|].
  eexists. eexists. split; [reflexivity|]. split; [reflexivity|].
  destruct (@min_count_only_removes_modes
              [Some [10; 103 # 10]; Some [101 # 10; 20]] (1 # 2) 1 2 _ _
              ltac:(lia) eq_refl eq_refl) as [Hi Hn].
  split; [exact Hi|].
  apply (Hn ltac:(lia) _ [[10; 101 # 10; 103 # 10]; [20]] eq_refl).
  reflexivity.
Defined.






(** ** [value_at] on a curve with samples *)

Lemma value_at_some (df : DataFrame) (target window : Q) :
  df <> [] ->
  exists v,
    ModeVisualizerRun.value_at (col_freq df) (col_imag df) target window
    = Ok v
    /\ In v (col_imag df).
Proof.
  intro Hne. rewrite value_at_rows.
  destruct (filter (in_window_b target window) df) as [|s sel] eqn:E.
  - destruct (@np_argmin_spec
                (map (fun f => Qabs (f - target)) (col_freq df)))
      as (r & Hr & Hlen & _).
    { destruct df; [congruence | discriminate]. }
    unfold col_freq in Hlen. rewrite !length_map in Hlen.
    rewrite Hr. cbn [bind]. rewrite (col_imag_item df Hlen).
    eexists. split; [reflexivity|].
    unfold col_imag, value.
    rewrite <- (map_nth snd). apply nth_In. rewrite length_map. exact Hlen.
  - destruct (@np_max_spec (map snd (s :: sel))) as (m & Hm & Hin & _);
      [discriminate|].
    exists m. split; [exact Hm|].
    apply in_map_iff in Hin. destruct Hin as (r & <- & Hr).
    rewrite <- E in Hr. apply filter_In in Hr.
    unfold col_imag. apply in_map, Hr.
Qed.

(** X9.  On a curve with at least one sample [value_at] raises nothing
    and returns the value of one of the samples, whatever the target and
    the window; on a curve without samples it raises [ValueError]. *)
Theorem value_at_returns_a_curve_value (df : DataFrame) (target window : Q) :
  (df <> [] ->
   exists v,
     ModeVisualizerRun.value_at (col_freq df) (col_imag df) target window
     = Ok v
     /\ In v (col_imag df))
  /\ (df = [] ->
      ModeVisualizerRun.value_at (col_freq df) (col_imag df) target window
      = Raise ValueError).
Proof.
  split; [apply value_at_some|]. intros ->. reflexivity.
Qed.

Lemma value_at_returns_a_curve_value_witness :
  [(1, 9); (2, 1); (6, 5)] <> []
  /\ exists v,
      ModeVisualizerRun.value_at [1; 2; 6] [9; 1; 5] 4 (-1 # 1) = Ok v
      /\ In v [9; 1; 5].
Proof.
  assert (H : [(1, 9); (2, 1); (6, 5)] <> []) by discriminate.
  split; [exact H|].
  apply (value_at_returns_a_curve_value
           [(1, 9); (2, 1); (6, 5)] 4 (-1 # 1)).
  exact H.
Defined.

(** X10.  A wider window never gives a smaller value: when the window
    [window] holds a sample and [window <= wider], the value found with
    [wider] is at least the value found with [window]. *)
Theorem wider_window_larger_value
  (df : DataFrame) (target window wider v v' : Q) :
  window <= wider ->
  (exists s, In s df /\ in_window target window s) ->
  ModeVisualizerRun.value_at (col_freq df) (col_imag df) target window
  = Ok v ->
  ModeVisualizerRun.value_at (col_freq df) (col_imag df) target wider
  = Ok v' ->
  v <= v'.
Proof.
  intros Hw (s & Hs & Hin). rewrite !value_at_rows. intros E E'.
  assert (Hsub : forall r, In r (filter (in_window_b target window) df) ->
                           In r (filter (in_window_b target wider) df)).
  { apply filter_incl. intro r. rewrite !in_window_b_iff.
    unfold in_window. intros [H1 H2]. split; lra. }
  assert (Hs1 : In s (filter (in_window_b target window) df)).
  { apply filter_In. split; [exact Hs|]. apply in_window_b_iff, Hin. }
  destruct (filter (in_window_b target window) df) as [|s1 sel1] eqn:F1;
    [contradiction|].
  destruct (filter (in_window_b target wider) df) as [|s2 sel2] eqn:F2.
  { destruct (Hsub s Hs1). }
  destruct (@np_max_spec (map snd (s1 :: sel1))) as (m & Hm & Hmin & _);
    [discriminate|].
  destruct (@np_max_spec (map snd (s2 :: sel2))) as (m' & Hm' & _ & Hmax);
    [discriminate|].
  rewrite Hm in E. rewrite Hm' in E'.
  injection E as <-. injection E' as <-.
  apply Hmax. apply in_map_iff in Hmin. destruct Hmin as (r & <- & Hr).
  apply in_map, Hsub, Hr.
Qed.

Lemma wider_window_larger_value_witness :
  1 <= 2
  /\ (exists s, In s [(1, 9); (2, 1); (3, 5); (4, 2); (5, 9)]
                /\ in_window 3 1 s)
  /\ 5 <= 9.
Proof.
  assert (H : exists s, In s [(1, 9); (2, 1); (3, 5); (4, 2); (5, 9)]
                        /\ in_window 3 1 s).
  { exists (3, 5). split; [simpl; auto|]. split; discriminate. }
  split; [discriminate|]. split; [exact H|].
  apply (@wider_window_larger_value
           [(1, 9); (2, 1); (3, 5); (4, 2); (5, 9)] 3 1 2 5 9);
    [discriminate | exact H | reflexivity | reflexivity].
Defined.

(** ** [corner_vector] and missing or empty curves *)

Lemma value_at_cases (df : DataFrame) (target window : Q) :
  (df = []
   /\ ModeVisualizerRun.value_at (col_freq df) (col_imag df) target window
      = Raise ValueError)
  \/ (df <> []
      /\ exists v,
          ModeVisualizerRun.value_at (col_freq df) (col_imag df)
                                     target window = Ok v).
Proof.
  destruct df as [|s df].
  - left. split; reflexivity.
  - right. split; [discriminate|].
    destruct (@value_at_some (s :: df) target window) as (v & Hv & _);
      [discriminate|].
    exists v. exact Hv.
Qed.

(** The three ways [corner_vector] can end. *)
Lemma corner_vector_outcome
  (dfs : ModeVisualizerRun.Dfs) (spin_win : Q) (p : Z) (f0 : Q) :
  ((exists v, ModeVisualizerRun.corner_vector dfs spin_win p f0 = Ok v)
   /\ forall ex m, In ex ["X"; "Y"]%string -> In m ["x"; "y"]%string ->
                   exists df, dfs (ModeVisualizerRun.channel_key p ex m)
                              = Some df
                              /\ df <> [])
  \/ (ModeVisualizerRun.corner_vector dfs spin_win p f0 = Raise KeyError
      /\ exists ex m, In ex ["X"; "Y"]%string /\ In m ["x"; "y"]%string
                      /\ dfs (ModeVisualizerRun.channel_key p ex m) = None)
  \/ (ModeVisualizerRun.corner_vector dfs spin_win p f0 = Raise ValueError
      /\ exists ex m, In ex ["X"; "Y"]%string /\ In m ["x"; "y"]%string
                      /\ dfs (ModeVisualizerRun.channel_key p ex m)
                         = Some []).
Proof.
  unfold ModeVisualizerRun.corner_vector. cbn [for_each].
  unfold ModeVisualizerRun.dict_get.
  destruct (dfs (ModeVisualizerRun.channel_key p "X" "x")) as [a|] eqn:Ea;
    cbn [bind];
    [|right; left; split; [reflexivity|];
      exists "X"%string, "x"%string; simpl; auto].
  destruct (dfs (ModeVisualizerRun.channel_key p "X" "y")) as [b|] eqn:Eb;
    cbn [bind];
    [|right; left; split; [reflexivity|];
      exists "X"%string, "y"%string; simpl; auto].
  destruct (value_at_cases a f0 spin_win) as [[Na Ra]|[Na [va Ra]]];
    rewrite Ra; cbn [bind];
    [right; right; split; [reflexivity|]; subst a;
     exists "X"%string, "x"%string; simpl; auto|].
  destruct (value_at_cases b f0 spin_win) as [[Nb Rb]|[Nb [vb Rb]]];
    rewrite Rb; cbn [bind];
    [right; right; split; [reflexivity|]; subst b;
     exists "X"%string, "y"%string; simpl; auto|].
  destruct (dfs (ModeVisualizerRun.channel_key p "Y" "x")) as [c|] eqn:Ec;
    cbn [bind];
    [|right; left; split; [reflexivity|];
      exists "Y"%string, "x"%string; simpl; auto].
  destruct (dfs (ModeVisualizerRun.channel_key p "Y" "y")) as [d|] eqn:Ed;
    cbn [bind];
    [|right; left; split; [reflexivity|];
      exists "Y"%string, "y"%string; simpl; auto].
  destruct (value_at_cases c f0 spin_win) as [[Nc Rc]|[Nc [vc Rc]]];
    rewrite Rc; cbn [bind];
    [right; right; split; [reflexivity|]; subst c;
     exists "Y"%string, "x"%string; simpl; auto|].
  destruct (value_at_cases d f0 spin_win) as [[Nd Rd]|[Nd [vd Rd]]];
    rewrite Rd; cbn [bind];
    [right; right; split; [reflexivity|]; subst d;
     exists "Y"%string, "y"%string; simpl; auto|].
  left. split; [eexists; reflexivity|].
  intros ex m [<-|[<-|[]]] [<-|[<-|[]]]; eauto.
Qed.

(** X11.  [corner_vector] returns a vector exactly when the four curves
    of the point are loaded and each has at least one sample.  Otherwise
    it raises [KeyError] or [ValueError] and nothing else: [KeyError]
    only when one of the four curves is not loaded, [ValueError] only
    when one of them is loaded without a sample.  When a curve is not
    loaded and no loaded curve is without samples it is [KeyError]; when
    the four curves are loaded and one is without samples it is
    [ValueError]. *)
Theorem corner_vector_needs_four_curves
  (dfs : ModeVisualizerRun.Dfs) (spin_win : Q) (p : Z) (f0 : Q) :
  ((exists v, ModeVisualizerRun.corner_vector dfs spin_win p f0 = Ok v)
   <-> (forall ex m, In ex ["X"; "Y"]%string -> In m ["x"; "y"]%string ->
                     exists df, dfs (ModeVisualizerRun.channel_key p ex m)
                                = Some df
                                /\ df <> []))
  /\ (forall e, ModeVisualizerRun.corner_vector dfs spin_win p f0 = Raise e ->
                e = KeyError \/ e = ValueError)
  /\ (ModeVisualizerRun.corner_vector dfs spin_win p f0 = Raise KeyError ->
      exists ex m, In ex ["X"; "Y"]%string /\ In m ["x"; "y"]%string
                   /\ dfs (ModeVisualizerRun.channel_key p ex m) = None)
  /\ (ModeVisualizerRun.corner_vector dfs spin_win p f0 = Raise ValueError ->
      exists ex m, In ex ["X"; "Y"]%string /\ In m ["x"; "y"]%string
                   /\ dfs (ModeVisualizerRun.channel_key p ex m) = Some [])
  /\ ((exists ex m, In ex ["X"; "Y"]%string /\ In m ["x"; "y"]%string
                    /\ dfs (ModeVisualizerRun.channel_key p ex m) = None) ->
      (forall ex m, In ex ["X"; "Y"]%string -> In m ["x"; "y"]%string ->
                    dfs (ModeVisualizerRun.channel_key p ex m) <> Some []) ->
      ModeVisualizerRun.corner_vector dfs spin_win p f0 = Raise KeyError)
  /\ ((exists ex m, In ex ["X"; "Y"]%string /\ In m ["x"; "y"]%string
                    /\ dfs (ModeVisualizerRun.channel_key p ex m)
                       = Some []) ->
      (forall ex m, In ex ["X"; "Y"]%string -> In m ["x"; "y"]%string ->
                    dfs (ModeVisualizerRun.channel_key p ex m) <> None) ->
      ModeVisualizerRun.corner_vector dfs spin_win p f0 = Raise ValueError).
Proof.
  destruct (corner_vector_outcome dfs spin_win p f0)
    as [[[v Hv] Hall]
       |[[Hk (ex & m & Hex & Hm & Hnone)]
        |[Hk (ex & m & Hex & Hm & Hemp)]]].
  - rewrite Hv. repeat split.
    + intros _. exact Hall.
    + intros _. exists v. reflexivity.
    + intros e He. discriminate.
    + discriminate.
    + discriminate.
    + intros (ex & m & Hex & Hm & Hn) _.
      destruct (Hall ex m Hex Hm) as (df & Hdf & _). congruence.
    + intros (ex & m & Hex & Hm & He) _.
      destruct (Hall ex m Hex Hm) as (df & Hdf & Hne). congruence.
  - rewrite Hk. repeat split.
    + intros [v Hv]. discriminate.
    + intros H. exfalso.
      destruct (H ex m Hex Hm) as (df & Hdf & Hne). congruence.
    + intros e He. injection He as <-. left. reflexivity.
    + intros _. exists ex, m. auto.
    + discriminate.
    + intros _ H. exfalso. apply (H ex m Hex Hm Hnone).
  - rewrite Hk. repeat split.
    + intros [v Hv]. discriminate.
    + intros H. exfalso.
      destruct (H ex m Hex Hm) as (df & Hdf & Hne). congruence.
    + intros e He. injection He as <-. right. reflexivity.
    + discriminate.
    + intros _. exists ex, m. auto.
    + intros _ H. exfalso. apply (H ex m Hex Hm Hemp).
Qed.

(** A point with one curve not loaded and another without samples: the
    curve that [corner_vector] reaches first decides. *)
Example corner_vector_first_fault :
  ModeVisualizerRun.corner_vector
    (fun k => if (k =? "P1_X_x")%string then Some []
              else if (k =? "P1_X_y")%string then None
              else corner1_dfs k)
    0 1 10
  = Raise KeyError
  /\ ModeVisualizerRun.corner_vector
       (fun k => if (k =? "P1_X_x")%string then Some []
                 else if (k =? "P1_Y_y")%string then None
                 else corner1_dfs k)
       0 1 10
     = Raise ValueError.
Proof. split; reflexivity. Qed.

(** A curve that is loaded but has no sample makes [corner_vector] raise
    [ValueError]. *)
Example corner_vector_empty_curve :
  ModeVisualizerRun.corner_vector
    (fun k => if (k =? "P1_X_x")%string then Some [] else corner1_dfs k)
    0 1 10
  = Raise ValueError.
Proof. reflexivity. Qed.


(** ** Sorting and filtering *)

Section SortFilter.
Variable A : Type.
Variable key : A -> Q.
Variable p : A -> bool.

Lemma insert_by_first (x : A) (l : list A) :
  Forall (fun z => key x <= key z) l -> insert_by key x l = x :: l.
Proof.
  intro H. destruct l as [|z l]; [reflexivity|]. simpl.
  apply Forall_inv in H. apply Qlt_bool_false_iff in H.
  rewrite H. reflexivity.
Qed.

Lemma filter_insert_by (x : A) (l : list A) :
  StronglySorted (fun a b => key a <= key b) l ->
  filter p (insert_by key x l)
  = if p x then insert_by key x (filter p l) else filter p l.
Proof.
  induction 1 as [|y l Hl IH Hy]; simpl.
  - destruct (p x); reflexivity.
  - destruct (Qlt_bool (key y) (key x)) eqn:E; simpl.
    + rewrite IH. destruct (p y), (p x); simpl; try rewrite E; reflexivity.
    + apply Qlt_bool_false_iff in E.
      destruct (p x) eqn:Px; [|reflexivity].
      destruct (p y) eqn:Py; simpl.
      * apply Qlt_bool_false_iff in E. rewrite E. reflexivity.
      * symmetry. apply insert_by_first.
        apply Forall_forall. intros z Hz. apply filter_In in Hz.
        rewrite Forall_forall in Hy.
        apply Qle_trans with (key y); [exact E | apply Hy, Hz].
Qed.

(** Filtering the rows and sorting them can be done in either order. *)
Lemma sorted_by_filter (l : list A) :
  sorted_by key (filter p l) = filter p (sorted_by key l).
Proof.
  induction l as [|x l IH]; simpl.
  - reflexivity.
  - rewrite filter_insert_by by apply le_strongly, sorted_by_sorted.
    destruct (p x); simpl; rewrite IH; reflexivity.
Qed.
End SortFilter.

(** ** Loading and restricting a curve *)

Lemma load_sorts_the_analyzer_rows (rows : list (Q * Q)) (s s' : Q) :
  ModeVisualizerRun.load_lvm_as_df rows s
  = sort_values_freq (ModeAnalyzer.load_lvm_as_df rows s').
Proof. reflexivity. Qed.

Lemma load_ascending (rows : list (Q * Q)) (s : Q) :
  ascending (ModeVisualizerRun.load_lvm_as_df rows s).
Proof.
  unfold ModeVisualizerRun.load_lvm_as_df, sort_values_freq.
  apply (sorted_by_sorted (fst (A := Q) (B := Q))).
Qed.

Lemma filter_range_ascending (fmin fmax : Q) (df : list (Q * Q)) :
  ascending df -> ascending (filter_range fmin fmax df).
Proof.
  intro H. unfold ascending, filter_range.
  apply StronglySorted_Sorted, StronglySorted_filter.
  apply (le_strongly fst H).
Qed.

Lemma filter_range_in (fmin fmax : Q) (df : list (Q * Q)) (s : Q * Q) :
  In s (filter_range fmin fmax df) <->
  In s df /\ fmin <= fst s /\ fst s <= fmax.
Proof.
  unfold filter_range.
  rewrite filter_In, andb_true_iff, !Qle_bool_iff. reflexivity.
Qed.

(** X12.  [load_lvm_as_df] of ModeVisualizerRun.py returns the rows of
    the file sorted ascending by frequency, with every frequency
    multiplied by 0.1 and every value unchanged; the argument
    [freq_scale] has no influence on the result. *)
Theorem load_scales_and_sorts (rows : list (Q * Q)) (freq_scale : Q) :
  ascending (ModeVisualizerRun.load_lvm_as_df rows freq_scale)
  /\ Permutation (map (fun s => (fst s * (1 # 10), snd s)) rows)
                 (ModeVisualizerRun.load_lvm_as_df rows freq_scale)
  /\ length (ModeVisualizerRun.load_lvm_as_df rows freq_scale)
     = length rows
  /\ forall other, ModeVisualizerRun.load_lvm_as_df rows other
                   = ModeVisualizerRun.load_lvm_as_df rows freq_scale.
Proof.
  split; [apply load_ascending|].
  assert (P : Permutation (map (fun s => (fst s * (1 # 10), snd s)) rows)
                (ModeVisualizerRun.load_lvm_as_df rows freq_scale)).
  { apply (sorted_by_perm (fst (A := Q) (B := Q))). }
  split; [exact P|]. split.
  - rewrite <- (Permutation_length P). apply length_map.
  - reflexivity.
Qed.

(** X13.  The two programs find the same peaks in a file whose scaled
    frequencies are all different: for every [sort_values] that returns
    the rows sorted ascending by frequency, the list that [update_plot]
    of ModeAnalyzer.py computes (load unsorted, restrict to the range,
    sort inside the detectors) equals the list that ModeVisualizerRun.py
    computes with [peaks_from_df] on the loaded (sorted) and restricted
    curve. *)
Theorem both_programs_find_the_same_peaks
  (sort_values : list (Q * Q) -> list (Q * Q))
  (rows : list (Q * Q)) (f_min f_max level : Q) :
  sorts_by_frequency sort_values ->
  strictly_ascending (ModeVisualizerRun.load_lvm_as_df rows 1) ->
  ModeAnalyzer.update_plot_peaks sort_values rows f_min f_max level
  = ModeVisualizerRun.peaks_from_df
      (Some (filter_range f_min f_max
                          (ModeVisualizerRun.load_lvm_as_df rows 1)))
      level.
Proof.
  intros Hsort Hs.
  unfold ModeAnalyzer.update_plot_peaks, ModeVisualizerRun.peaks_from_df.
  set (raw := ModeAnalyzer.load_lvm_as_df rows 1).
  assert (E : filter_range f_min f_max
                (ModeVisualizerRun.load_lvm_as_df rows 1)
              = sort_values_freq (filter_range f_min f_max raw)).
  { unfold sort_values_freq, filter_range. rewrite sorted_by_filter.
    reflexivity. }
  assert (S : strictly_ascending
                (filter_range f_min f_max
                   (ModeVisualizerRun.load_lvm_as_df rows 1))).
  { unfold strictly_ascending, filter_range.
    apply StronglySorted_Sorted, StronglySorted_filter.
    apply (lt_strongly fst Hs). }
  assert (U : sort_values (filter_range f_min f_max raw)
              = sort_values_freq (filter_range f_min f_max raw)).
  { rewrite E in S. destruct (Hsort (filter_range f_min f_max raw)) as [HP Ha].
    apply (resort_without_ties S); [|exact Ha].
    eapply Permutation_trans; [apply Permutation_sym, HP|].
    apply (sorted_by_perm (fst (A := Q) (B := Q))). }
  assert (L : length (sort_values_freq (filter_range f_min f_max raw))
              = length (filter_range f_min f_max raw)).
  { symmetry. apply Permutation_length.
    apply (sorted_by_perm (fst (A := Q) (B := Q))). }
  rewrite E.
  unfold ModeAnalyzer.find_positive_peaks, ModeAnalyzer.find_negative_peaks,
    ModeVisualizerRun.find_positive_peaks,
    ModeVisualizerRun.find_negative_peaks.
  destruct (Nat.lt_ge_cases (length (filter_range f_min f_max raw)) 3)
    as [H|H].
  - rewrite (guard_short _ H).
    rewrite guard_short by (rewrite L; exact H). reflexivity.
  - rewrite (guard_long _ H).
    rewrite guard_long by (rewrite L; exact H).
    rewrite U. reflexivity.
Qed.

Lemma both_programs_find_the_same_peaks_witness :
  sorts_by_frequency sort_values_reversing_ties
  /\ strictly_ascending
       (ModeVisualizerRun.load_lvm_as_df
          [(300, 1); (100, 0); (200, 4); (400, 0); (900, 7)] 1)
  /\ ModeAnalyzer.update_plot_peaks sort_values_reversing_ties
       [(300, 1); (100, 0); (200, 4); (400, 0); (900, 7)] 5 50 1
     = ModeVisualizerRun.peaks_from_df
         (Some (filter_range 5 50
                  (ModeVisualizerRun.load_lvm_as_df
                     [(300, 1); (100, 0); (200, 4); (400, 0); (900, 7)] 1)))
         1.
Proof.
  assert (H : strictly_ascending
                (ModeVisualizerRun.load_lvm_as_df
                   [(300, 1); (100, 0); (200, 4); (400, 0); (900, 7)] 1)).
  { unfold strictly_ascending. repeat constructor; simpl; lra. }
  split; [exact sort_values_reversing_ties_sorts|].
  split; [exact H|].
  apply (@both_programs_find_the_same_peaks sort_values_reversing_ties
           [(300, 1); (100, 0); (200, 4); (400, 0); (900, 7)] 5 50 1
           sort_values_reversing_ties_sorts H).
Defined.

(** The rows of a file that is not sorted, seen by both programs. *)
Example both_programs_example :
  ModeAnalyzer.update_plot_peaks sort_values_freq
    [(300, 1); (100, 0); (200, 4); (400, 0); (900, 7)] 5 50 1
  = Ok [(200 # 10, 4)]
  /\ ModeVisualizerRun.peaks_from_df
       (Some (filter_range 5 50
                (ModeVisualizerRun.load_lvm_as_df
                   [(300, 1); (100, 0); (200, 4); (400, 0); (900, 7)] 1)))
       1
     = Ok [(200 # 10, 4)].
Proof. split; reflexivity. Qed.

(** With tied frequencies in the file the two programs can differ: a
    sort that reverses tied rows hands ModeAnalyzer.py the values
    5, 1, 0, 0. *)
Example both_programs_differ_on_tied_rows :
  ModeAnalyzer.update_plot_peaks sort_values_reversing_ties
    [(0, 1); (0, 5); (10, 0); (10, 0)] 0 50 1 = Ok []
  /\ ModeAnalyzer.update_plot_peaks sort_values_freq
       [(0, 1); (0, 5); (10, 0); (10, 0)] 0 50 1 = Ok [(0 # 10, 5)].
Proof. split; reflexivity. Qed.


(** ** Dictionaries *)

Lemma dict_getitem_setitem_same (V : Type) (d : dict V) (k : string) (v : V) :
  dict_getitem (dict_setitem d k v) k = Ok v.
Proof.
  induction d as [|[k' v'] d IH]; simpl.
  - rewrite String.eqb_refl. reflexivity.
  - destruct (k' =? k)%string eqn:E; simpl; rewrite E; [reflexivity|].
    exact IH.
Qed.

Lemma dict_getitem_setitem_other (V : Type) (d : dict V) (k k' : string)
  (v : V) :
  k <> k' -> dict_getitem (dict_setitem d k v) k' = dict_getitem d k'.
Proof.
  intro H. induction d as [|[k0 v0] d IH]; simpl.
  - apply String.eqb_neq in H. rewrite H. reflexivity.
  - destruct (k0 =? k)%string eqn:E; simpl.
    + apply String.eqb_eq in E. subst k0.
      apply String.eqb_neq in H. rewrite H. reflexivity.
    + rewrite IH. reflexivity.
Qed.

Lemma dict_getitem_setitem_keeps (V : Type) (d : dict V) (k k' : string)
  (v : V) :
  (exists w, dict_getitem d k' = Ok w) ->
  exists w, dict_getitem (dict_setitem d k v) k' = Ok w.
Proof.
  intros [w Hw]. destruct (String.eqb_spec k k') as [->|N].
  - exists v. apply dict_getitem_setitem_same.
  - exists w. rewrite dict_getitem_setitem_other by exact N. exact Hw.
Qed.

Lemma dict_setitem_values (V : Type) (P : V -> Prop) (d : dict V)
  (k : string) (v : V) :
  Forall (fun kv => P (snd kv)) d -> P v ->
  Forall (fun kv => P (snd kv)) (dict_setitem d k v).
Proof.
  intros Hd Hv. induction Hd as [|[k' v'] d Hk Hd IH]; simpl.
  - constructor; [exact Hv | constructor].
  - destruct (k' =? k)%string; constructor; assumption.
Qed.

Lemma dict_getitem_in (V : Type) (d : dict V) (k : string) (v : V) :
  dict_getitem d k = Ok v -> In (k, v) d.
Proof.
  induction d as [|[k' v'] d IH]; simpl; [discriminate|].
  destruct (String.eqb_spec k' k) as [->|N].
  - intro E. injection E as ->. left. reflexivity.
  - intro E. right. apply IH, E.
Qed.

Lemma for_each_invariant (A S : Type) (I : S -> Prop)
  (body : A -> S -> result S) (xs : list A) :
  (forall x s s', In x xs -> I s -> body x s = Ok s' -> I s') ->
  forall s0 s, I s0 -> for_each xs body s0 = Ok s -> I s.
Proof.
  induction xs as [|x xs IH]; intros Hb s0 s H0 E; simpl in E.
  - injection E as <-. exact H0.
  - destruct (body x s0) as [s1|e] eqn:B; simpl in E; [|discriminate].
    apply (IH (fun y t t' Hy => Hb y t t' (or_intror Hy)) s1 s); [|exact E].
    apply (Hb x s0 s1); [left; reflexivity | exact H0 | exact B].
Qed.

(** ** [run_analysis] *)

Lemma peaks_in_curve (df : list (Q * Q)) (level : Q) (pk : list (Q * Q)) :
  ModeVisualizerRun.peaks_from_df (Some df) level = Ok pk ->
  forall p, In p pk -> In p df.
Proof.
  rewrite peaks_from_df_eq. intros E p Hp. injection E as <-.
  apply (Permutation_in _ (Permutation_sym (sorted_by_perm fst _))) in Hp.
  apply in_app_or in Hp. destruct Hp as [Hp|Hp];
    apply in_map_iff in Hp; destruct Hp as (i & <- & Hi).
  - apply positive_peak_b_iff in Hi. destruct Hi as (Hr & _).
    apply sample_in. lia.
  - apply negative_peak_b_iff in Hi. destruct Hi as (Hr & _).
    apply sample_in. lia.
Qed.

(** What [run_analysis] computes once the guard has passed. *)
Lemma run_analysis_steps (read_csv : string -> result (list (Q * Q)))
  (st st' : ModeVisualizer16.State) (fmin fmax level tol : Q) (minc : Z) :
  ModeVisualizer16.run_analysis read_csv st fmin fmax level tol minc
  = Ok (st', true) ->
  ModeVisualizer16.all_chosen (ModeVisualizer16.paths st)
                              ModeVisualizer16.keys = Ok true
  /\ for_each (ModeVisualizer16.paths st)
       (fun kp dfs =>
          rows <- read_csv (snd kp) ;;
          let df := ModeVisualizerRun.load_lvm_as_df rows 1 in
          let df := filter_range fmin fmax df in
          Ok (dict_setitem dfs (fst kp) df))
       [] = Ok (ModeVisualizer16.dfs st')
  /\ exists apf,
      for_each (ModeVisualizer16.dfs st')
        (fun kdf acc =>
           pk <- ModeVisualizerRun.peaks_from_df (Some (snd kdf)) level ;;
           let pf := map fst pk in
           Ok (dict_setitem (fst acc) (fst kdf) pk, snd acc ++ [Some pf]))
        ([], []) = Ok (ModeVisualizer16.peaks st', apf)
      /\ ModeVisualizerRun.cluster_modes apf tol minc
         = Ok (ModeVisualizer16.modes st').
Proof.
  unfold ModeVisualizer16.run_analysis. intro E.
  destruct (ModeVisualizer16.all_chosen (ModeVisualizer16.paths st)
              ModeVisualizer16.keys) as [[|]|e]; cbn [bind negb] in E;
    try discriminate.
  split; [reflexivity|].
  match type of E with
  | bind ?c _ = _ => destruct c as [d|e] eqn:D
  end; cbn [bind] in E; [|discriminate].
  match type of E with
  | bind ?c _ = _ => destruct c as [[pd apf]|e] eqn:P
  end; cbn [bind] in E; [|discriminate].
  cbn [fst snd] in E.
  destruct (ModeVisualizerRun.cluster_modes apf tol minc) as [ms|e] eqn:M;
    cbn [bind] in E; [|discriminate].
  injection E as <-.
  cbn [ModeVisualizer16.dfs ModeVisualizer16.peaks ModeVisualizer16.modes].
  split; [reflexivity|]. exists apf. split; [exact P | exact M].
Qed.

Lemma loaded_curves_in_range (read_csv : string -> result (list (Q * Q)))
  (items : dict string) (fmin fmax : Q) (d : dict (list (Q * Q))) :
  for_each items
    (fun kp dfs =>
       rows <- read_csv (snd kp) ;;
       let df := ModeVisualizerRun.load_lvm_as_df rows 1 in
       let df := filter_range fmin fmax df in
       Ok (dict_setitem dfs (fst kp) df))
    [] = Ok d ->
  Forall (fun kv => ascending (snd kv)
                    /\ forall s, In s (snd kv) ->
                                 in_range fmin fmax (fst s)) d.
Proof.
  apply (for_each_invariant
           (fun d : dict (list (Q * Q)) =>
              Forall (fun kv => ascending (snd kv)
                                /\ forall s, In s (snd kv) ->
                                             in_range fmin fmax (fst s)) d)).
  - intros [k path] s s' _ Hs B. cbn [fst snd] in B.
    destruct (read_csv path) as [rows|e]; cbn [bind] in B; [|discriminate].
    injection B as <-.
    apply (dict_setitem_values
             (fun df : list (Q * Q) =>
                ascending df
                /\ forall s, In s df -> in_range fmin fmax (fst s)));
      [exact Hs|].
    split.
    + apply filter_range_ascending, load_ascending.
    + intros r Hr. apply filter_range_in in Hr. apply Hr.
  - constructor.
Qed.

Lemma peak_frequencies_in_range (level fmin fmax : Q)
  (d : dict (list (Q * Q))) (pd : dict (list (Q * Q)))
  (apf : list (option (list Q))) :
  Forall (fun kv => forall s, In s (snd kv) -> in_range fmin fmax (fst s)) d ->
  for_each d
    (fun kdf acc =>
       pk <- ModeVisualizerRun.peaks_from_df (Some (snd kdf)) level ;;
       let pf := map fst pk in
       Ok (dict_setitem (fst acc) (fst kdf) pk, snd acc ++ [Some pf]))
    ([], []) = Ok (pd, apf) ->
  Forall (fun kv => forall p, In p (snd kv) -> in_range fmin fmax (fst p)) pd
  /\ forall a v, In (Some a) apf -> In v a -> in_range fmin fmax v.
Proof.
  intros Hd E.
  apply (for_each_invariant
           (fun acc : dict (list (Q * Q)) * list (option (list Q)) =>
              Forall (fun kv => forall p, In p (snd kv) ->
                                          in_range fmin fmax (fst p))
                     (fst acc)
              /\ forall a v, In (Some a) (snd acc) -> In v a ->
                             in_range fmin fmax v)
           _ d) with (s0 := ([], [])) (s := (pd, apf)) in E.
  - exact E.
  - intros [k df] [pd0 apf0] acc' Hin [H1 H2] B. cbn [fst snd] in *.
    destruct (ModeVisualizerRun.peaks_from_df (Some df) level)
      as [pk|e] eqn:P; cbn [bind] in B; [|discriminate].
    injection B as <-. cbn [fst snd].
    rewrite Forall_forall in Hd. specialize (Hd (k, df) Hin).
    cbn [snd] in Hd.
    assert (Hpk : forall p, In p pk -> in_range fmin fmax (fst p)).
    { intros p Hp. apply Hd. apply (peaks_in_curve _ _ P p Hp). }
    split.
    + apply (dict_setitem_values
               (fun pk : list (Q * Q) =>
                  forall p, In p pk -> in_range fmin fmax (fst p)));
        assumption.
    + intros a v Ha Hv. apply in_app_or in Ha.
      destruct Ha as [Ha|[Ha|[]]]; [apply (H2 a v Ha Hv)|].
      injection Ha as <-. apply in_map_iff in Hv.
      destruct Hv as (p & <- & Hp). apply Hpk, Hp.
  - split; [constructor|]. intros a v [].
Qed.

(** X14.  After a run of the analysis every stored curve is sorted
    ascending by frequency and holds only frequencies in [[fmin, fmax]],
    and every stored peak has its frequency in [[fmin, fmax]]. *)
Theorem analysis_stays_in_the_range
  (read_csv : string -> result (list (Q * Q)))
  (st st' : ModeVisualizer16.State) (fmin fmax level tol : Q) (minc : Z) :
  ModeVisualizer16.run_analysis read_csv st fmin fmax level tol minc
  = Ok (st', true) ->
  (forall k df, In (k, df) (ModeVisualizer16.dfs st') ->
                ascending df
                /\ forall s, In s df -> in_range fmin fmax (fst s))
  /\ (forall k pk p, In (k, pk) (ModeVisualizer16.peaks st') -> In p pk ->
                     in_range fmin fmax (fst p)).
Proof.
  intro E. apply run_analysis_steps in E.
  destruct E as (_ & D & apf & P & M).
  assert (Hd := @loaded_curves_in_range read_csv _ fmin fmax _ D).
  assert (Hd' : Forall (fun kv => forall s, In s (snd kv) ->
                                            in_range fmin fmax (fst s))
                       (ModeVisualizer16.dfs st')).
  { rewrite Forall_forall in *. intros kv Hkv. apply Hd, Hkv. }
  destruct (@peak_frequencies_in_range level fmin fmax _ _ _ Hd' P)
    as [Hp Ha].
  split.
  - intros k df Hin. rewrite Forall_forall in Hd. apply (Hd (k, df) Hin).
  - intros k pk p Hin Hpin. rewrite Forall_forall in Hp.
    apply (Hp (k, pk) Hin p Hpin).
Qed.

Lemma analysis_stays_in_the_range_witness :
  exists st',
    ModeVisualizer16.run_analysis five_rows all_chosen_state
                                  5 50 1 (1 # 2) 4 = Ok (st', true)
    /\ (forall k df, In (k, df) (ModeVisualizer16.dfs st') ->
                     ascending df
                     /\ forall s, In s df -> in_range 5 50 (fst s))
    /\ (forall k pk p, In (k, pk) (ModeVisualizer16.peaks st') -> In p pk ->
                       in_range 5 50 (fst p)).
Proof.
  assert (E : exists st',
             ModeVisualizer16.run_analysis five_rows all_chosen_state
                                           5 50 1 (1 # 2) 4 = Ok (st', true)).
  { eexists. vm_compute. reflexivity. }
  destruct E as [st' E]. exists st'. split; [exact E|].
  apply (@analysis_stays_in_the_range _ _ _ _ _ _ _ _ E).
Defined.

Lemma all_chosen_ok (paths : dict string) (ks : list string) :
  ModeVisualizer16.all_chosen paths ks = Ok true ->
  forall k, In k ks ->
            exists p, dict_getitem paths k = Ok p /\ p <> ""%string.
Proof.
  induction ks as [|k0 ks IH]; intros E k Hk; [destruct Hk|].
  simpl in E.
  destruct (dict_getitem paths k0) as [p0|e] eqn:G; cbn [bind] in E;
    [|discriminate].
  destruct (String.eqb_spec p0 "") as [->|N]; [discriminate|].
  destruct Hk as [<-|Hk].
  - exists p0. auto.
  - apply IH; assumption.
Qed.

Lemma loaded_keys (read_csv : string -> result (list (Q * Q)))
  (fmin fmax : Q) (items : dict string) :
  forall (d0 d : dict (list (Q * Q))),
    for_each items
      (fun kp dfs =>
         rows <- read_csv (snd kp) ;;
         let df := ModeVisualizerRun.load_lvm_as_df rows 1 in
         let df := filter_range fmin fmax df in
         Ok (dict_setitem dfs (fst kp) df))
      d0 = Ok d ->
    forall k, (exists w, dict_getitem d0 k = Ok w) \/ In k (map fst items) ->
              exists w, dict_getitem d k = Ok w.
Proof.
  induction items as [|[k0 path] items IH]; intros d0 d E k Hk;
    cbn [for_each] in E.
  - injection E as <-. destruct Hk as [Hk|[]]. exact Hk.
  - cbn [fst snd] in E.
    destruct (read_csv path) as [rows|e]; cbn [bind] in E; [|discriminate].
    apply (IH _ _ E). cbn [map fst] in Hk.
    destruct Hk as [Hk|[<-|Hk]].
    + left. apply dict_getitem_setitem_keeps, Hk.
    + left. eexists. apply dict_getitem_setitem_same.
    + right. exact Hk.
Qed.

Lemma corner_vector_loaded (dfs : ModeVisualizerRun.Dfs) (spin_win : Q)
  (p : Z) (f0 : Q) (a b c d : list (Q * Q)) :
  dfs (ModeVisualizerRun.channel_key p "X" "x") = Some a ->
  dfs (ModeVisualizerRun.channel_key p "X" "y") = Some b ->
  dfs (ModeVisualizerRun.channel_key p "Y" "x") = Some c ->
  dfs (ModeVisualizerRun.channel_key p "Y" "y") = Some d ->
  ModeVisualizerRun.corner_vector dfs spin_win p f0 = Raise ValueError
  \/ exists v, ModeVisualizerRun.corner_vector dfs spin_win p f0 = Ok v.
Proof.
  intros Ea Eb Ec Ed.
  unfold ModeVisualizerRun.corner_vector. cbn [for_each].
  unfold ModeVisualizerRun.dict_get. rewrite Ea, Eb, Ec, Ed. cbn [bind].
  destruct (value_at_cases a f0 spin_win) as [[_ Ra]|[_ [va Ra]]];
    rewrite Ra; cbn [bind]; [left; reflexivity|].
  destruct (value_at_cases b f0 spin_win) as [[_ Rb]|[_ [vb Rb]]];
    rewrite Rb; cbn [bind]; [left; reflexivity|].
  destruct (value_at_cases c f0 spin_win) as [[_ Rc]|[_ [vc Rc]]];
    rewrite Rc; cbn [bind]; [left; reflexivity|].
  destruct (value_at_cases d f0 spin_win) as [[_ Rd]|[_ [vd Rd]]];
    rewrite Rd; cbn [bind]; [left; reflexivity|].
  right. eexists. reflexivity.
Qed.

Lemma corner_keys (p : Z) (ex m : string) :
  In p [1; 2; 3; 4]%Z -> In ex ["X"; "Y"]%string -> In m ["x"; "y"]%string ->
  In (ModeVisualizerRun.channel_key p ex m) ModeVisualizer16.keys.
Proof.
  intros [<-|[<-|[<-|[<-|[]]]]] [<-|[<-|[]]] [<-|[<-|[]]];
    vm_compute; tauto.
Qed.

(** X15.  After a run of the analysis a curve is stored for each of the
    16 keys, so [corner_vector] finds every curve it looks up for the
    points 1 to 4: it never raises [KeyError]. *)
Theorem analysed_state_has_every_curve
  (read_csv : string -> result (list (Q * Q)))
  (st st' : ModeVisualizer16.State) (fmin fmax level tol : Q) (minc : Z) :
  ModeVisualizer16.run_analysis read_csv st fmin fmax level tol minc
  = Ok (st', true) ->
  (forall k, In k ModeVisualizer16.keys ->
             exists df, dict_getitem (ModeVisualizer16.dfs st') k = Ok df)
  /\ forall (p : Z) (spin_win f0 : Q),
      In p [1; 2; 3; 4]%Z ->
      ModeVisualizerRun.corner_vector
        (ModeVisualizer16.as_dfs (ModeVisualizer16.dfs st')) spin_win p f0
      <> Raise KeyError.
Proof.
  intro E. apply run_analysis_steps in E. destruct E as (G & D & _).
  assert (K : forall k, In k ModeVisualizer16.keys ->
                        exists df,
                          dict_getitem (ModeVisualizer16.dfs st') k = Ok df).
  { intros k Hk. apply (@loaded_keys read_csv fmin fmax _ _ _ D). right.
    destruct (@all_chosen_ok _ _ G k Hk) as (path & Hp & _).
    apply dict_getitem_in in Hp.
    apply in_map_iff. exists (k, path). auto. }
  split; [exact K|].
  intros p spin_win f0 Hp.
  assert (S : forall ex m, In ex ["X"; "Y"]%string ->
                           In m ["x"; "y"]%string ->
                           exists df,
                             ModeVisualizer16.as_dfs
                               (ModeVisualizer16.dfs st')
                               (ModeVisualizerRun.channel_key p ex m)
                             = Some df).
  { intros ex m Hex Hm.
    destruct (K _ (@corner_keys p ex m Hp Hex Hm)) as [df Hdf].
    exists df. unfold ModeVisualizer16.as_dfs. rewrite Hdf. reflexivity. }
  destruct (S "X" "x")%string as [a Ea]; [simpl; auto ..|].
  destruct (S "X" "y")%string as [b Eb]; [simpl; auto ..|].
  destruct (S "Y" "x")%string as [c Ec]; [simpl; auto ..|].
  destruct (S "Y" "y")%string as [d Ed]; [simpl; auto ..|].
  destruct (@corner_vector_loaded _ spin_win p f0 _ _ _ _ Ea Eb Ec Ed)
    as [R|[v R]];
    rewrite R; discriminate.
Qed.

Lemma analysed_state_has_every_curve_witness :
  exists st',
    ModeVisualizer16.run_analysis five_rows all_chosen_state
                                  5 50 1 (1 # 2) 4 = Ok (st', true)
    /\ ModeVisualizerRun.corner_vector
         (ModeVisualizer16.as_dfs (ModeVisualizer16.dfs st')) (8 # 10) 3 20
       <> Raise KeyError.
Proof.
  assert (E : exists st',
             ModeVisualizer16.run_analysis five_rows all_chosen_state
                                           5 50 1 (1 # 2) 4 = Ok (st', true)).
  { eexists. vm_compute. reflexivity. }
  destruct E as [st' E]. exists st'. split; [exact E|].
  apply (@analysed_state_has_every_curve _ _ _ _ _ _ _ _ E).
  simpl. auto.
Defined.

(** ** The guard of [run_analysis] *)

Lemma init_has_every_key (k : string) :
  In k ModeVisualizer16.keys ->
  dict_getitem (ModeVisualizer16.paths ModeVisualizer16.init) k
  = Ok ""%string.
Proof.
  intro Hk. vm_compute in Hk.
  repeat (destruct Hk as [<-|Hk]; [vm_compute; reflexivity|]).
  destruct Hk.
Qed.

Lemma reachable_has_every_key (st : ModeVisualizer16.State) :
  reachable st ->
  forall k, In k ModeVisualizer16.keys ->
            exists p, dict_getitem (ModeVisualizer16.paths st) k = Ok p.
Proof.
  induction 1 as [|st key f _ IH _|st key _ IH _]; intros k Hk.
  - exists ""%string. apply init_has_every_key, Hk.
  - unfold ModeVisualizer16.select_file.
    destruct (f =? "")%string; [apply IH, Hk|].
    cbn [ModeVisualizer16.paths].
    apply dict_getitem_setitem_keeps, IH, Hk.
  - cbn [ModeVisualizer16.clear_file ModeVisualizer16.paths].
    apply dict_getitem_setitem_keeps, IH, Hk.
Qed.

Lemma all_chosen_false (paths : dict string) (ks : list string) :
  (forall k, In k ks -> exists p, dict_getitem paths k = Ok p) ->
  (exists k, In k ks /\ dict_getitem paths k = Ok ""%string) ->
  ModeVisualizer16.all_chosen paths ks = Ok false.
Proof.
  induction ks as [|k0 ks IH]; intros Hall (k & Hk & Ek); [destruct Hk|].
  simpl. destruct (Hall k0 (or_introl eq_refl)) as [p0 G]. rewrite G.
  cbn [bind]. destruct (String.eqb_spec p0 "") as [_|N]; [reflexivity|].
  apply IH.
  - intros k' Hk'. apply Hall. right. exact Hk'.
  - destruct Hk as [<-|Hk].
    + rewrite G in Ek. injection Ek as ->. congruence.
    + exists k. auto.
Qed.

(** X16.  The analysis runs only when a file is chosen for each of the 16
    keys.  In every state that the file buttons can produce, a key
    without a file makes [run_analysis] return early and leave the state
    as it is; this is so after [clear_file], whatever was chosen before.
    When [run_analysis] does run, every key has a non-empty path. *)
Theorem analysis_needs_all_sixteen_files
  (read_csv : string -> result (list (Q * Q)))
  (st : ModeVisualizer16.State) (fmin fmax level tol : Q) (minc : Z) :
  reachable st ->
  (forall k, In k ModeVisualizer16.keys ->
             dict_getitem (ModeVisualizer16.paths st) k = Ok ""%string ->
             ModeVisualizer16.run_analysis read_csv st fmin fmax level tol minc
             = Ok (st, false))
  /\ (forall k, In k ModeVisualizer16.keys ->
                ModeVisualizer16.run_analysis
                  read_csv (ModeVisualizer16.clear_file st k)
                  fmin fmax level tol minc
                = Ok (ModeVisualizer16.clear_file st k, false))
  /\ (forall st',
         ModeVisualizer16.run_analysis read_csv st fmin fmax level tol minc
         = Ok (st', true) ->
         forall k, In k ModeVisualizer16.keys ->
                   exists p, dict_getitem (ModeVisualizer16.paths st) k = Ok p
                             /\ p <> ""%string).
Proof.
  intro R.
  assert (G : forall st0 k,
             reachable st0 -> In k ModeVisualizer16.keys ->
             dict_getitem (ModeVisualizer16.paths st0) k = Ok ""%string ->
             ModeVisualizer16.run_analysis read_csv st0 fmin fmax level
                                           tol minc
             = Ok (st0, false)).
  { intros st0 k R0 Hk Ek. unfold ModeVisualizer16.run_analysis.
    rewrite (@all_chosen_false (ModeVisualizer16.paths st0)
               ModeVisualizer16.keys (reachable_has_every_key R0)).
    - reflexivity.
    - exists k. auto. }
  split; [|split].
  - intros k Hk Ek. apply (G st k R Hk Ek).
  - intros k Hk. apply (G _ k (reach_clear R Hk) Hk).
    cbn [ModeVisualizer16.clear_file ModeVisualizer16.paths].
    apply dict_getitem_setitem_same.
  - intros st' E. apply run_analysis_steps in E. destruct E as (C & _).
    apply (all_chosen_ok _ _ C).
Qed.

Lemma analysis_needs_all_sixteen_files_witness :
  reachable all_chosen_state
  /\ ModeVisualizer16.run_analysis
       five_rows (ModeVisualizer16.clear_file all_chosen_state "P2_Y_x")
       5 50 1 (1 # 2) 4
     = Ok (ModeVisualizer16.clear_file all_chosen_state "P2_Y_x", false).
Proof.
  assert (R : reachable all_chosen_state).
  { unfold all_chosen_state.
    assert (H : forall ks st,
               reachable st ->
               (forall k, In k ks -> In k ModeVisualizer16.keys) ->
               reachable
                 (fold_left
                    (fun st k => ModeVisualizer16.select_file st k
                                   (k ++ ".lvm"))
                    ks st)).
    { induction ks as [|k ks IH]; intros st Hst Hin; simpl.
      - exact Hst.
      - apply IH.
        + apply reach_select; [exact Hst | apply Hin; left; reflexivity].
        + intros k' Hk'. apply Hin. right. exact Hk'. }
    apply H; [apply reach_init | auto]. }
  split; [exact R|].
  apply (@analysis_needs_all_sixteen_files five_rows all_chosen_state
           5 50 1 (1 # 2) 4 R).
  vm_compute. tauto.
Defined.

(** ** The axis limits of [draw_frf] *)






(** One flat curve gets the fixed margin 0.001. *)
Example frf_limits_flat_curve :
  ModeVisualizer16.draw_frf [("P1_X_x"%string, [(1, 2); (2, 2)])] 0 10
  = Ok (Some (0, 10), Some (2 - (1 # 1000), 2 + (1 # 1000))).
Proof. reflexivity. Qed.

(** ** The normalised field and the view of [draw_mode] *)

Section DrawModeFacts.
Local Open Scope R_scope.

Lemma normalize_cases (u : list (R * R)) :
  u <> [] ->
  exists top,
    In top (map DrawMode.norm u)
    /\ (forall v, In v u -> DrawMode.norm v <= top)
    /\ ((top < 1e-12 /\ DrawMode.normalize u = Ok u)
        \/ (1e-12 <= top
            /\ DrawMode.normalize u = Ok (map (DrawMode.vdiv top) u))).
Proof.
  intro Hu.
  destruct (@np_max_real (map DrawMode.norm u)) as (top & Htop & Hin & Hmax).
  { destruct u; [congruence | discriminate]. }
  exists top. split; [exact Hin|]. split.
  { intros v Hv. apply Hmax, in_map, Hv. }
  unfold DrawMode.normalize. rewrite Htop. cbn [bind].
  destruct (Rlt_dec top 1e-12) as [L|L].
  - left. split; [exact L|]. rewrite vdiv_one. reflexivity.
  - right. split; [lra | reflexivity].
Qed.

Lemma abs_le_norm (v : R * R) :
  Rabs (fst v) <= DrawMode.norm v /\ Rabs (snd v) <= DrawMode.norm v.
Proof.
  unfold DrawMode.norm. split.
  - rewrite <- sqrt_Rsqr_abs. apply sqrt_le_1_alt. unfold Rsqr. nra.
  - rewrite <- sqrt_Rsqr_abs. apply sqrt_le_1_alt. unfold Rsqr. nra.
Qed.

(** A displacement [s * c * a] with [|c| <= m], [|a| <= 1] and [s >= 0]
    stays within [s * m]. *)
Lemma displacement_bound (s c a m : R) :
  0 <= s -> Rabs c <= m -> -1 <= a <= 1 ->
  - (s * m) <= s * c * a <= s * m.
Proof.
  intros Hs Hc Ha.
  assert (Hm : 0 <= m) by (assert (H := Rabs_pos c); lra).
  assert (Hca : Rabs (c * a) <= m).
  { rewrite Rabs_mult.
    assert (H1 : Rabs a <= 1) by (apply Rabs_le; lra).
    assert (H0 := Rabs_pos c). assert (H2 := Rabs_pos a). nra. }
  assert (H3 := Rle_abs (c * a)).
  assert (H4 := Rle_abs (- (c * a))). rewrite Rabs_Ropp in H4.
  replace (s * c * a) with (s * (c * a)) by ring. nra.
Qed.

Lemma add_rows_in (pts u : list (R * R)) (s a : R) :
  forall d, DrawMode.add_rows pts u s a = Ok d ->
  length d = length pts
  /\ forall q, In q d ->
               exists p v, In p pts /\ In v u
                           /\ q = (fst p + s * fst v * a,
                                   snd p + s * snd v * a).
Proof.
  revert u. induction pts as [|p pts IH]; intros [|v u] d E; simpl in E;
    try discriminate.
  - injection E as <-. split; [reflexivity|]. intros q [].
  - destruct (DrawMode.add_rows pts u s a) as [d'|e] eqn:D;
      cbn [bind] in E; [|discriminate].
    injection E as <-. destruct (IH u d' D) as [L H].
    split; [simpl; rewrite L; reflexivity|].
    intros q [<-|Hq].
    + exists p, v. simpl. auto.
    + destruct (H q Hq) as (p' & v' & Hp & Hv & Eq).
      exists p', v'. simpl. auto.
Qed.

Lemma deform_in (pts u : list (R * R)) (s a : R) (d : list (R * R)) :
  DrawMode.deform pts u s a = Ok d ->
  length d = length pts
  /\ forall q, In q d ->
               exists p v, In p pts /\ In v u
                           /\ q = (fst p + s * fst v * a,
                                   snd p + s * snd v * a).
Proof.
  unfold DrawMode.deform.
  destruct u as [|v [|v' u]]; intro E; try (apply (add_rows_in _ _ _ _ E)).
  destruct (add_rows_in _ _ _ _ E) as [L H]. split; [exact L|].
  intros q Hq. destruct (H q Hq) as (p & w & Hp & Hw & Eq).
  apply in_map_iff in Hw. destruct Hw as (_ & <- & _).
  exists p, v. simpl. auto.
Qed.

Lemma pts_in_unit_square (p : R * R) :
  In p DrawMode.pts -> 0 <= fst p <= 1 /\ 0 <= snd p <= 1.
Proof.
  intros [<-|[<-|[<-|[<-|[]]]]]; simpl; lra.
Qed.

Lemma py_max_bounds (a b : R) :
  a <= DrawMode.py_max a b /\ b <= DrawMode.py_max a b.
Proof. unfold DrawMode.py_max. destruct (Rlt_dec a b); lra. Qed.

(** X20.  Nothing is cut off: for a scale that is not negative, every
    point of the polygon that [update] draws in any frame lies within
    the axis limits that [_set_auto_view] has set, and these limits leave
    a margin of at least 0.25 around the unit square. *)
Theorem view_holds_every_frame
  (u_norm : list (R * R)) (s : R) (k : Z) (lo hi : R)
  (poly : list (R * R)) :
  0 <= s ->
  DrawMode.set_auto_view u_norm s = Ok (lo, hi) ->
  DrawMode.update s u_norm k = Ok poly ->
  lo <= - (25 / 100)
  /\ 1 + 25 / 100 <= hi
  /\ forall q, In q poly ->
               (lo <= fst q <= hi) /\ (lo <= snd q <= hi).
Proof.
  intros Hs V U.
  unfold DrawMode.set_auto_view in V.
  destruct (DrawMode.np_max (map DrawMode.norm u_norm)) as [m|e] eqn:M;
    cbn [bind] in V; [|discriminate].
  injection V as <- <-.
  assert (Hne : map DrawMode.norm u_norm <> []).
  { intro E. rewrite E in M. discriminate. }
  destruct (np_max_real Hne) as (m' & M' & Hmin & Hmax).
  rewrite M in M'. injection M' as <-.
  assert (Hm : 0 <= m).
  { apply in_map_iff in Hmin. destruct Hmin as (v & <- & _).
    apply norm_nonneg. }
  destruct (py_max_bounds (25 / 100) (12 / 10 * (s * m))) as [B1 B2].
  set (margin := DrawMode.py_max (25 / 100) (12 / 10 * (s * m))) in *.
  assert (Hsm : s * m <= margin) by nra.
  split; [lra|]. split; [lra|].
  unfold DrawMode.update in U.
  destruct (DrawMode.deform DrawMode.pts u_norm s
              (sin (2 * PI * IZR k / 60))) as [d|e] eqn:D;
    cbn [bind] in U; [|discriminate].
  destruct (getitem d 0) as [d0|e] eqn:G; cbn [bind] in U; [|discriminate].
  injection U as <-.
  destruct (deform_in _ _ _ _ D) as [_ H].
  assert (Hd : forall q, In q d ->
                         (- margin <= fst q <= 1 + margin)
                         /\ (- margin <= snd q <= 1 + margin)).
  { intros q Hq. destruct (H q Hq) as (p & v & Hp & Hv & ->).
    cbn [fst snd].
    destruct (@pts_in_unit_square p Hp) as [Px Py].
    destruct (abs_le_norm v) as [Ax Ay].
    assert (Hn : DrawMode.norm v <= m) by (apply Hmax, in_map, Hv).
    assert (Sa := SIN_bound (2 * PI * IZR k / 60)).
    assert (Dx := @displacement_bound s (fst v)
                    (sin (2 * PI * IZR k / 60)) m Hs ltac:(lra) Sa).
    assert (Dy := @displacement_bound s (snd v)
                    (sin (2 * PI * IZR k / 60)) m Hs ltac:(lra) Sa).
    lra. }
  intros q Hq. apply in_app_or in Hq. destruct Hq as [Hq|[<-|[]]].
  - apply Hd, Hq.
  - apply Hd. unfold getitem in G.
    destruct (nth_error d 0) as [x|] eqn:N; [|discriminate].
    injection G as <-. apply (nth_error_In _ _ N).
Qed.
Lemma set_auto_view_ok (u_norm : list (R * R)) (s : R) :
  u_norm <> [] -> exists lo hi, DrawMode.set_auto_view u_norm s = Ok (lo, hi).
Proof.
  intro Hne.
  destruct (@np_max_real (map DrawMode.norm u_norm)) as (m & M & _).
  { destruct u_norm; [congruence | discriminate]. }
  unfold DrawMode.set_auto_view. rewrite M. cbn [bind].
  eexists. eexists. reflexivity.
Qed.

Lemma view_holds_every_frame_witness :
  0 <= 1 / 4
  /\ exists lo hi poly,
      DrawMode.set_auto_view [(1, 0); (0, 1); (0, 0); (3 / 5, 4 / 5)] (1 / 4)
      = Ok (lo, hi)
      /\ DrawMode.update (1 / 4) [(1, 0); (0, 1); (0, 0); (3 / 5, 4 / 5)] 15
         = Ok poly
      /\ length poly = 5%nat
      /\ forall q, In q poly ->
                   (lo <= fst q <= hi) /\ (lo <= snd q <= hi).
Proof.
  assert (Hs : 0 <= 1 / 4) by lra.
  split; [exact Hs|].
  destruct (@set_auto_view_ok [(1, 0); (0, 1); (0, 0); (3 / 5, 4 / 5)]
              (1 / 4)) as (lo & hi & V); [discriminate|].
  assert (U : exists poly,
             DrawMode.update (1 / 4)
               [(1, 0); (0, 1); (0, 0); (3 / 5, 4 / 5)] 15 = Ok poly
             /\ length poly = 5%nat).
  { eexists. split; reflexivity. }
  destruct U as (poly & U & L).
  exists lo, hi, poly. split; [exact V|]. split; [exact U|].
  split; [exact L|].
  apply (@view_holds_every_frame
           [(1, 0); (0, 1); (0, 0); (3 / 5, 4 / 5)] (1 / 4) 15 lo hi poly
           Hs V U).
Defined.

Lemma comprehension_ok (A B : Type) (f : A -> result B) (xs : list A) :
  (exists ys, comprehension f xs = Ok ys)
  <-> forall x, In x xs -> exists y, f x = Ok y.
Proof.
  induction xs as [|x xs IH]; simpl.
  - split; [intros _ x [] | intros _; eexists; reflexivity].
  - split.
    + intros [ys E].
      destruct (f x) as [y|e] eqn:F; cbn [bind] in E; [|discriminate].
      destruct (comprehension f xs) as [ys'|e] eqn:C; cbn [bind] in E;
        [|discriminate].
      intros x' [<-|Hx'].
      * exists y. exact F.
      * apply IH; [eexists; reflexivity | exact Hx'].
    + intro H. destruct (H x (or_introl eq_refl)) as [y F].
      rewrite F. cbn [bind].
      destruct IH as [_ IH]. destruct IH as [ys C].
      { intros x' Hx'. apply H. right. exact Hx'. }
      rewrite C. cbn [bind]. eexists. reflexivity.
Qed.

Lemma comprehension_length (A B : Type) (f : A -> result B) (xs : list A) :
  forall ys, comprehension f xs = Ok ys -> length ys = length xs.
Proof.
  induction xs as [|x xs IH]; intros ys E; simpl in E.
  - injection E as <-. reflexivity.
  - destruct (f x) as [y|e]; cbn [bind] in E; [|discriminate].
    destruct (comprehension f xs) as [ys'|e]; cbn [bind] in E;
      [|discriminate].
    injection E as <-. simpl. rewrite (IH ys' eq_refl). reflexivity.
Qed.

Lemma normalize_ok (u : list (R * R)) :
  u <> [] ->
  exists un, DrawMode.normalize u = Ok un /\ length un = length u.
Proof.
  intro Hne.
  destruct (normalize_cases Hne) as (top & _ & _ & [[_ E]|[_ E]]).
  - exists u. auto.
  - eexists. split; [exact E|]. apply length_map.
Qed.

Lemma add_rows_ok (pts u : list (R * R)) (s a : R) :
  length u = length pts -> exists d, DrawMode.add_rows pts u s a = Ok d.
Proof.
  revert u. induction pts as [|p pts IH]; intros [|v u] L; simpl in L;
    try discriminate.
  - eexists. reflexivity.
  - destruct (IH u) as [d D]; [lia|].
    simpl. rewrite D. cbn [bind]. eexists. reflexivity.
Qed.

Lemma update_ok (s : R) (u_norm : list (R * R)) (k : Z) :
  length u_norm = 4%nat ->
  exists poly, DrawMode.update s u_norm k = Ok poly /\ length poly = 5%nat.
Proof.
  intro L. unfold DrawMode.update.
  assert (D : exists d,
             DrawMode.deform DrawMode.pts u_norm s
               (sin (2 * PI * IZR k / 60)) = Ok d).
  { unfold DrawMode.deform.
    destruct u_norm as [|v [|v' u]]; try discriminate.
    apply add_rows_ok. exact L. }
  destruct D as [d D]. rewrite D. cbn [bind].
  destruct (deform_in _ _ _ _ D) as [Ld _].
  destruct d as [|d0 d]; [discriminate|].
  cbn [getitem nth_error bind]. eexists. split; [reflexivity|].
  rewrite length_app, Ld. reflexivity.
Qed.

(** X21.  [draw_mode] fails only where [corner_vector] fails: it
    returns a normalised field and a view exactly when [corner_vector]
    returns a vector for each of the points 1 to 4.  The field then has
    four vectors, and every frame of the animation can be drawn as a
    closed polygon of five points. *)
Theorem draw_mode_fails_only_in_corner_vector
  (dfs : ModeVisualizerRun.Dfs) (spin_win : Q) (spin_scale : R) (f0 : Q) :
  ((exists r, DrawMode.draw_mode dfs spin_win spin_scale f0 = Ok r)
   <-> (forall p, In p [1; 2; 3; 4]%Z ->
                  exists v, ModeVisualizerRun.corner_vector dfs spin_win p f0
                            = Ok v))
  /\ forall u_norm view,
      DrawMode.draw_mode dfs spin_win spin_scale f0 = Ok (u_norm, view) ->
      length u_norm = 4%nat
      /\ forall k, exists poly,
            DrawMode.update spin_scale u_norm k = Ok poly
            /\ length poly = 5%nat.
Proof.
  assert (Steps : forall u,
             comprehension
               (fun i => ModeVisualizerRun.corner_vector dfs spin_win i f0)
               (map Z.of_nat (range 1 5)) = Ok u ->
             exists un view,
               DrawMode.draw_mode dfs spin_win spin_scale f0 = Ok (un, view)
               /\ length un = 4%nat).
  { intros u C.
    assert (Lu := comprehension_length _ _ C).
    destruct (@normalize_ok
                (map (fun v => (Q2R (fst v), Q2R (snd v))) u))
      as (un & N & Ln).
    { destruct u; [discriminate Lu | discriminate]. }
    rewrite length_map, Lu in Ln.
    destruct (@set_auto_view_ok un spin_scale) as (lo & hi & V).
    { destruct un; [discriminate Ln | discriminate]. }
    exists un, (lo, hi). split; [|exact Ln].
    unfold DrawMode.draw_mode, DrawMode.u_norm. rewrite C. cbn [bind].
    rewrite N. cbn [bind]. rewrite V. reflexivity. }
  split.
  - rewrite <- (comprehension_ok
                  (fun i => ModeVisualizerRun.corner_vector dfs spin_win i f0)
                  [1; 2; 3; 4]%Z).
    change [1; 2; 3; 4]%Z with (map Z.of_nat (range 1 5)).
    split.
    + intros [r E]. unfold DrawMode.draw_mode, DrawMode.u_norm in E.
      destruct (comprehension _ (map Z.of_nat (range 1 5))) as [u|e];
        [eexists; reflexivity | discriminate].
    + intros [u C]. destruct (Steps u C) as (un & view & E & _).
      eexists. exact E.
  - intros un view E.
    assert (C : exists u,
               comprehension
                 (fun i => ModeVisualizerRun.corner_vector dfs spin_win i f0)
                 (map Z.of_nat (range 1 5)) = Ok u).
    { unfold DrawMode.draw_mode, DrawMode.u_norm in E.
      destruct (comprehension _ (map Z.of_nat (range 1 5))) as [u|e];
        [eexists; reflexivity | discriminate]. }
    destruct C as [u C]. destruct (Steps u C) as (un' & view' & E' & L).
    rewrite E in E'. injection E' as <- <-.
    split; [exact L|]. intro k. apply update_ok, L.
Qed.

End DrawModeFacts.
